(** * Channel pairing approval: gateway and HTTP adapters

    A shallow embedding of
      - src/gateway/server-methods/pairing.ts  (gateway operations
        [channel.pair.list] and [channel.pair.approve]), and
      - src/gateway/pairing-http.ts            ([handlePairingHttpRequest]),
    together with the properties of the two adapters.

    Conventions of the embedding.
      - A JavaScript string is a [JsString.string]: a sequence of UTF-16
        code units.  [trim] strips the white space and line terminators of
        ECMAScript.  [String.prototype.toLowerCase] is the Unicode case
        conversion of the engine, which grows with the Unicode version the
        engine ships: it is a field of the environment, known to lower-case
        A-Z and nothing else on strings of ASCII code units.
      - A value of static type [unknown] (the gateway [params], a parsed JSON
        body) is a [value].
      - The external collaborators (channel registry, pairing store,
        notifier, configuration loader, authorization engine, local-origin
        check, bearer-token extraction, clock) are, with the engine's
        [toLowerCase], the fields of an [Env]: what each of them answers
        while one request is served.
      - An [async] handler is a computation in the monad [M]: it produces the
        ordered list of externally visible [event]s and ends either with a
        value or with an exception (a rejected promise).
      - The store, the configuration loader, the notifier and the
        authorization engine may throw or reject; the notifier may throw
        before it returns its promise, or return a promise that rejects.  The
        registry, the local-origin check, the bearer-token extraction, the
        logger, the broadcast sink and the response callbacks return
        normally. *)

From Stdlib Require Import List ZArith NArith Bool Arith Lia.
From Stdlib.Strings Require Import Byte.
Import ListNotations.

(** ** JavaScript strings *)

Module JsString.

(** A UTF-16 code unit, as a number below 65536. *)
Definition unit16 : Type := N.

(** A string value: a finite sequence of code units. *)
Inductive string : Type :=
| EmptyString
| String (c : unit16) (s : string).

(** String literals of this file denote code units below 256, one per
    byte of the literal. *)
Fixpoint of_bytes (l : list byte) : string :=
  match l with
  | [] => EmptyString
  | b :: rest => String (Byte.to_N b) (of_bytes rest)
  end.

Fixpoint to_bytes (s : string) : option (list byte) :=
  match s with
  | EmptyString => Some []
  | String c rest =>
      match Byte.of_N c, to_bytes rest with
      | Some b, Some l => Some (b :: l)
      | _, _ => None
      end
  end.

Declare Scope js_scope.
Delimit Scope js_scope with js.
Bind Scope js_scope with string.
String Notation string of_bytes to_bytes : js_scope.

Fixpoint append (s1 s2 : string) : string :=
  match s1 with
  | EmptyString => s2
  | String c s1' => String c (append s1' s2)
  end.

Notation "x ++ y" := (append x y) (right associativity, at level 60) : js_scope.

(** [s.length] *)
Fixpoint length (s : string) : nat :=
  match s with
  | EmptyString => 0
  | String _ s' => S (length s')
  end.

(** [s1 === s2] *)
Fixpoint eqb (s1 s2 : string) : bool :=
  match s1, s2 with
  | EmptyString, EmptyString => true
  | String c1 s1', String c2 s2' => N.eqb c1 c2 && eqb s1' s2'
  | _, _ => false
  end.

(** The first code unit of a literal. *)
Definition unit_of (s : string) : unit16 :=
  match s with
  | String c _ => c
  | EmptyString => 0%N
  end.
Arguments unit_of : simpl never.

Definition code (c : unit16) : N := c.

Definition between (lo hi : N) (c : unit16) : bool :=
  (lo <=? code c)%N && (code c <=? hi)%N.

(** White space and line terminators stripped by [String.prototype.trim]:
    TAB, LF, VT, FF, CR, SP, NBSP, U+1680, U+2000..U+200A, LS, PS, U+202F,
    U+205F, U+3000 and the byte order mark U+FEFF. *)
Definition is_space (c : unit16) : bool :=
  between 9 13 c || (code c =? 32)%N || (code c =? 160)%N
  || (code c =? 5760)%N || between 8192 8202 c
  || (code c =? 8232)%N || (code c =? 8233)%N || (code c =? 8239)%N
  || (code c =? 8287)%N || (code c =? 12288)%N || (code c =? 65279)%N.

Fixpoint trimStart (s : string) : string :=
  match s with
  | EmptyString => EmptyString
  | String c r => if is_space c then trimStart r else s
  end.

Definition is_empty (s : string) : bool :=
  match s with EmptyString => true | String _ _ => false end.

Fixpoint trimEnd (s : string) : string :=
  match s with
  | EmptyString => EmptyString
  | String c r =>
      let r' := trimEnd r in
      if is_space c && is_empty r' then EmptyString else String c r'
  end.

Definition trim (s : string) : string := trimEnd (trimStart s).

Fixpoint all_chars (p : unit16 -> bool) (s : string) : bool :=
  match s with
  | EmptyString => true
  | String c r => p c && all_chars p r
  end.

(** Strings of ASCII code units only, and their lower-casing: on such a
    string [String.prototype.toLowerCase] maps A-Z to a-z and leaves every
    other code unit alone. *)
Definition is_ascii (s : string) : bool :=
  all_chars (fun c => (code c <? 128)%N) s.

Definition lower_ascii_unit (c : unit16) : unit16 :=
  if between 65 90 c then (c + 32)%N else c.

Fixpoint lower_ascii (s : string) : string :=
  match s with
  | EmptyString => EmptyString
  | String c r => String (lower_ascii_unit c) (lower_ascii r)
  end.

(** [s.startsWith(p)] *)
Fixpoint startsWith (p s : string) : bool :=
  match p, s with
  | EmptyString, _ => true
  | String a p', String b s' => N.eqb a b && startsWith p' s'
  | String _ _, EmptyString => false
  end.

(** [s.slice(n)] for [0 <= n] *)
Fixpoint slice (n : nat) (s : string) : string :=
  match n, s with
  | O, _ => s
  | S n', String _ r => slice n' r
  | S _, EmptyString => EmptyString
  end.

(** [s.split(sep)] for a separator of one code unit *)
Fixpoint split (sep : unit16) (s : string) : list string :=
  match s with
  | EmptyString => [EmptyString]
  | String c r =>
      if N.eqb c sep then EmptyString :: split sep r
      else match split sep r with
           | h :: t => String c h :: t
           | [] => [String c EmptyString]
           end
  end.

(** [xs.includes(x)] on an array of strings *)
Definition includes (xs : list string) (x : string) : bool :=
  existsb (eqb x) xs.

End JsString.

Import JsString.
Open Scope js_scope.

(** ** JavaScript values of static type [unknown] *)

Module JsValue.

#[local] Set Warnings "-register-all".

Inductive value : Type :=
| VUndefined
| VNull
| VBool (b : bool)
| VNum (n : Z)
| VStr (s : string)
| VArr (items : list value)
| VObj (fields : list (string * value)).

(** [typeof v === "object"]: [null], arrays and objects. *)
Definition typeof_object (v : value) : bool :=
  match v with
  | VNull | VArr _ | VObj _ => true
  | _ => false
  end.

(** [typeof v === "string"] *)
Definition typeof_string (v : value) : bool :=
  match v with VStr _ => true | _ => false end.

Definition is_null (v : value) : bool :=
  match v with VNull => true | _ => false end.

(** ToBoolean: what [if (v)] and [!v] test. *)
Definition truthy (v : value) : bool :=
  match v with
  | VUndefined | VNull => false
  | VBool b => b
  | VNum n => negb (n =? 0)%Z
  | VStr s => negb (JsString.is_empty s)
  | VArr _ | VObj _ => true
  end.

(** [v === true] *)
Definition is_true (v : value) : bool :=
  match v with VBool true => true | _ => false end.

Fixpoint lookup (k : string) (fields : list (string * value)) : value :=
  match fields with
  | [] => VUndefined
  | (k', v) :: rest => if JsString.eqb k k' then v else lookup k rest
  end.

(** [v?.k] for the property names read by the adapters ([channel], [code],
    [notify]): the own property of a plain object, [undefined] on anything
    else. *)
Definition prop (v : value) (k : string) : value :=
  match v with
  | VObj fields => lookup k fields
  | _ => VUndefined
  end.

(** The string behind a value already known to be one. *)
Definition as_string (v : value) : string :=
  match v with VStr s => s | _ => EmptyString end.

(** Truthiness of a [string | null | undefined]; [Some] carries the
    non-empty string that remains after an [if (!x) return]. *)
Definition truthy_string (x : option string) : option string :=
  match x with
  | Some s => if JsString.is_empty s then None else Some s
  | None => None
  end.

End JsValue.

Import JsString JsValue.

(** ** Events, outcomes and the handler monad *)

(** Modelled from the spec: the error codes of [../protocol/index.js] are not
    part of the sources; the adapters use [ErrorCodes.INVALID_REQUEST] and
    [ErrorCodes.UNAVAILABLE], and [errorShape(code, message)] builds the
    structured error. *)
Inductive ErrorCode : Type := INVALID_REQUEST | UNAVAILABLE.

Record ErrorShape : Type := errorShape { err_code : ErrorCode; err_message : string }.

Inductive event : Type :=
| ListRequests (channel : string)
    (* listChannelPairingRequests(channel) *)
| ApproveCode (channel code : string)
    (* approveChannelPairingCode({channel, code}) *)
| LoadConfig
    (* loadConfig() *)
| Notify (channelId id : string) (cfg : value)
    (* notifyPairingApproved({channelId, id, cfg}) *)
| Authorize (token password : string) (allowTailscale : bool)
    (* authorizeGatewayConnect({auth, connectAuth: {token, password}, ...}) *)
| ReadBody
    (* the request stream is consumed *)
| LogInfo (msg : string)
| LogWarn (msg : string)
| Broadcast (name : string) (payload : value) (dropIfSlow : bool)
    (* context.broadcast(name, payload, {dropIfSlow}) *)
| Respond (ok : bool) (payload : option value) (error : option ErrorShape)
    (* respond(ok, payload, error) *)
| SendJson (status : Z) (body : value).
    (* sendJson(res, status, body) *)

(** How a call ends: with a value, or by throwing / rejecting; [err] is
    [String(err)]. *)
Inductive outcome (A : Type) : Type :=
| Ok (a : A)
| Throw (err : string).
Arguments Ok {A} a.
Arguments Throw {A} err.

Definition M (A : Type) : Type := (list event * outcome A)%type.

Definition ret {A} (a : A) : M A := ([], Ok a).

Definition bind {A B} (m : M A) (f : A -> M B) : M B :=
  match m with
  | (t, Ok a) => let (t', r) := f a in ((t ++ t')%list, r)
  | (t, Throw e) => (t, Throw e)
  end.

Definition emit (e : event) : M unit := ([e], Ok tt).

Definition throw {A} (e : string) : M A := ([], Throw e).

(** A call to an external collaborator: the call is recorded, then it
    ends the way the collaborator decides. *)
Definition call {A} (e : event) (r : outcome A) : M A := ([e], r).

(** [await p] for a promise that is fulfilled or rejects. *)
Definition await {A} (promise : outcome A) : M A := ([], promise).

(** [try { m } catch (err) { h err }], and [promise.catch(h)]. *)
Definition try_catch {A} (m : M A) (h : string -> M A) : M A :=
  match m with
  | (t, Ok a) => (t, Ok a)
  | (t, Throw e) => let (t', r) := h e in ((t ++ t')%list, r)
  end.

Notation "x <- m ;; k" := (bind m (fun x => k))
  (at level 61, m at next level, right associativity).
Notation "m ;;; k" := (bind m (fun _ => k))
  (at level 61, right associativity).

Definition trace {A} (m : M A) : list event := fst m.
Definition result {A} (m : M A) : outcome A := snd m.

(** ** External collaborators *)

Record Env : Type := {
  (** [String.prototype.toLowerCase], and what it does on ASCII text *)
  toLowerCase : string -> string;
  toLowerCase_ascii :
    forall s, is_ascii s = true -> toLowerCase s = lower_ascii s;
  (** [listPairingChannels()]: the registry of known channels *)
  listPairingChannels : list string;
  (** [listChannelPairingRequests(channel)] *)
  listChannelPairingRequests : string -> outcome (list value);
  (** [approveChannelPairingCode({channel, code})]: [Some id] is the
      approved request [{id, ...}], [None] is [null] (no match) *)
  approveChannelPairingCode : string -> string -> outcome (option string);
  (** [loadConfig()] *)
  loadConfig : outcome value;
  (** [notifyPairingApproved({channelId, id, cfg})]: the call throws, or
      returns a promise, which in turn is fulfilled or rejects *)
  notifyPairingApproved : string -> string -> value -> outcome (outcome unit);
  (** [isLocalDirectRequest(req, opts.trustedProxies)] *)
  isLocalDirectRequest : bool;
  (** [getBearerToken(req)] *)
  getBearerToken : option string;
  (** [(await authorizeGatewayConnect({connectAuth: {token, password}, ...})).ok] *)
  authorizeGatewayConnect : string -> string -> outcome bool;
  (** [Date.now()] *)
  Date_now : Z
}.

(** ** Channel resolution (the same function in both files) *)

Definition is_lower_letter (c : unit16) : bool := between 97 122 c.

Definition is_channel_tail_char (c : unit16) : bool :=
  between 97 122 c || between 48 57 c || (code c =? 95)%N || (code c =? 45)%N.

(** [/^[a-z][a-z0-9_-]{0,63}$/.test(value)] *)
Definition extension_pattern_test (value : string) : bool :=
  match value with
  | EmptyString => false
  | String c rest =>
      is_lower_letter c && (JsString.length rest <=? 63)%nat
      && all_chars is_channel_tail_char rest
  end.

Definition resolveChannel (env : Env) (raw : string) : option string :=
  let value := toLowerCase env (trim raw) in
  let channels := listPairingChannels env in
  if includes channels value then Some value
  else if extension_pattern_test value then Some value
  else None.

(** ** The gateway adapter (server-methods/pairing.ts) *)

Module Gateway.

Definition validateChannelPairListParams (params : value) : bool :=
  if negb (truthy params) || negb (typeof_object params) then false
  else
    typeof_string (prop params "channel")
    && (0 <? JsString.length (trim (as_string (prop params "channel"))))%nat.

Definition validateChannelPairApproveParams (params : value) : bool :=
  if negb (truthy params) || negb (typeof_object params) then false
  else
    typeof_string (prop params "channel")
    && (0 <? JsString.length (trim (as_string (prop params "channel"))))%nat
    && typeof_string (prop params "code")
    && (0 <? JsString.length (trim (as_string (prop params "code"))))%nat.

Definition respond (ok : bool) (payload : option value)
    (error : option ErrorShape) : M unit :=
  emit (Respond ok payload error).

Definition list_payload (channel : string) (requests : list value) : value :=
  VObj [("channel", VStr channel); ("requests", VArr requests)].

Definition approve_payload (channel id : string) : value :=
  VObj [("channel", VStr channel); ("id", VStr id); ("approved", VBool true)].

Definition resolved_event (env : Env) (channel id : string) : value :=
  VObj [("channel", VStr channel); ("id", VStr id);
        ("decision", VStr "approved"); ("ts", VNum (Date_now env))].

(** ["channel.pair.list"] *)
Definition channel_pair_list (env : Env) (params : value) : M unit :=
  if negb (validateChannelPairListParams params) then
    respond false None
      (Some (errorShape INVALID_REQUEST
               "invalid channel.pair.list params: channel (string) required"))
  else
    let params_channel := as_string (prop params "channel") in
    match truthy_string (resolveChannel env params_channel) with
    | None =>
        respond false None
          (Some (errorShape INVALID_REQUEST ("invalid channel: " ++ params_channel)))
    | Some channel =>
        try_catch
          (requests <- call (ListRequests channel)
                            (listChannelPairingRequests env channel) ;;
           respond true (Some (list_payload channel requests)) None)
          (fun err => respond false None (Some (errorShape UNAVAILABLE err)))
    end.

(** ["channel.pair.approve"] *)
Definition channel_pair_approve (env : Env) (params : value) : M unit :=
  if negb (validateChannelPairApproveParams params) then
    respond false None
      (Some (errorShape INVALID_REQUEST
               "invalid channel.pair.approve params: channel (string) and code (string) required"))
  else
    let params_channel := as_string (prop params "channel") in
    let params_code := as_string (prop params "code") in
    let params_notify := prop params "notify" in
    match truthy_string (resolveChannel env params_channel) with
    | None =>
        respond false None
          (Some (errorShape INVALID_REQUEST ("invalid channel: " ++ params_channel)))
    | Some channel =>
        try_catch
          (approved <- call (ApproveCode channel params_code)
                            (approveChannelPairingCode env channel params_code) ;;
           match approved with
           | None =>
               respond false None
                 (Some (errorShape INVALID_REQUEST
                          ("no pending pairing request found for code: " ++ params_code)))
           | Some id =>
               emit (LogInfo ("channel pairing approved channel=" ++ channel
                              ++ " id=" ++ id)) ;;;
               emit (Broadcast "channel.pair.resolved"
                               (resolved_event env channel id) true) ;;;
               (if truthy params_notify then
                  cfg <- call LoadConfig (loadConfig env) ;;
                  promise <- call (Notify channel id cfg)
                                  (notifyPairingApproved env channel id cfg) ;;
                  try_catch
                    (await promise)
                    (fun err =>
                       emit (LogWarn ("failed to notify pairing requester: " ++ err)))
                else ret tt) ;;;
               respond true (Some (approve_payload channel id)) None
           end)
          (fun err => respond false None (Some (errorShape UNAVAILABLE err)))
    end.

End Gateway.

(** ** The HTTP adapter (pairing-http.ts) *)

Module Http.

(** What the handler reads of the [IncomingMessage]. *)
Record Request : Type := {
  (** [new URL(req.url ?? "/", "http://localhost").pathname]; [None] when
      the constructor throws (a request target such as [//]) *)
  url_pathname : option string;
  (** [req.method] *)
  method : string;
  (** [JSON.parse] of the concatenated body chunks; [None] when the stream
      errors or [JSON.parse] throws *)
  json_body : option value
}.

Definition PAIRING_BASE_PATH : string := "/api/pairing".

Definition sendJson (status : Z) (body : value) : M unit :=
  emit (SendJson status body).

Definition error_body (msg : string) : value :=
  VObj [("ok", VBool false); ("error", VStr msg)].

Definition list_body (channel : string) (requests : list value) : value :=
  VObj [("ok", VBool true); ("channel", VStr channel); ("requests", VArr requests)].

Definition approve_body (channel id : string) : value :=
  VObj [("ok", VBool true); ("channel", VStr channel); ("id", VStr id);
        ("approved", VBool true)].

(** What the promise of [readJsonBody] resolves with: the parsed body when
    it is a non-null object, [null] otherwise. *)
Definition body_value (req : Request) : value :=
  match json_body req with
  | Some parsed =>
      if typeof_object parsed && negb (is_null parsed) then parsed else VNull
  | None => VNull
  end.

Definition readJsonBody (req : Request) : M value :=
  emit ReadBody ;;; ret (body_value req).

(** [typeof body?.code === "string" ? body.code.trim() : ""] *)
Definition code_of (body : value) : string :=
  if typeof_string (prop body "code") then trim (as_string (prop body "code"))
  else "".

(** [body?.notify === true] *)
Definition notify_of (body : value) : bool := is_true (prop body "notify").

(** [url.pathname.slice(PAIRING_BASE_PATH.length).split("/").filter(Boolean)] *)
Definition pathParts (pathname : string) : list string :=
  filter (fun s => negb (is_empty s))
         (split (unit_of "/") (slice (JsString.length PAIRING_BASE_PATH) pathname)).

(** The list action (lines 109-117). *)
Definition handle_list (env : Env) (channel : string) : M bool :=
  try_catch
    (requests <- call (ListRequests channel)
                      (listChannelPairingRequests env channel) ;;
     sendJson 200 (list_body channel requests))
    (fun err => sendJson 500 (error_body err)) ;;;
  ret true.

(** The approve action (lines 120-148). *)
Definition handle_approve (env : Env) (req : Request) (channel : string) : M bool :=
  body <- readJsonBody req ;;
  let code := code_of body in
  let notify := notify_of body in
  if is_empty code then
    sendJson 400 (error_body "code is required") ;;; ret true
  else
    try_catch
      (approved <- call (ApproveCode channel code)
                        (approveChannelPairingCode env channel code) ;;
       match approved with
       | None =>
           sendJson 404
             (error_body ("No pending pairing request found for code: " ++ code))
       | Some id =>
           (if notify then
              cfg <- call LoadConfig (loadConfig env) ;;
              promise <- call (Notify channel id cfg)
                              (notifyPairingApproved env channel id cfg) ;;
              try_catch (await promise) (fun _ => ret tt)
            else ret tt) ;;;
           sendJson 200 (approve_body channel id)
       end)
      (fun err => sendJson 500 (error_body err)) ;;;
    ret true.

(** The statements after the authorization block (lines 108-152). *)
Definition dispatch (env : Env) (req : Request) (channel action : string) : M bool :=
  if JsString.eqb action "list" && JsString.eqb (method req) "GET" then
    handle_list env channel
  else if JsString.eqb action "approve" && JsString.eqb (method req) "POST" then
    handle_approve env req channel
  else
    sendJson 404 (error_body "Not Found") ;;; ret true.

Definition handlePairingHttpRequest (env : Env) (req : Request) : M bool :=
  match url_pathname req with
  | None => throw "TypeError: Invalid URL"
  | Some pathname =>
      if negb (startsWith PAIRING_BASE_PATH pathname) then ret false
      else
        match pathParts pathname with
        | [channelRaw; action] =>
            match truthy_string (resolveChannel env channelRaw) with
            | None =>
                sendJson 400 (error_body ("Invalid channel: " ++ channelRaw)) ;;;
                ret true
            | Some channel =>
                if negb (isLocalDirectRequest env) then
                  match truthy_string (getBearerToken env) with
                  | None =>
                      sendJson 401 (error_body "Unauthorized") ;;; ret true
                  | Some token =>
                      authResult_ok <- call (Authorize token token false)
                                            (authorizeGatewayConnect env token token) ;;
                      if negb authResult_ok then
                        sendJson 401 (error_body "Unauthorized") ;;; ret true
                      else dispatch env req channel action
                  end
                else dispatch env req channel action
            end
        | _ =>
            sendJson 404 (error_body "Not Found") ;;; ret true
        end
  end.

End Http.

Import Gateway Http.

(** ** Observations on traces *)

Definition is_store_call (e : event) : bool :=
  match e with
  | ListRequests _ | ApproveCode _ _ => true
  | _ => false
  end.

Definition is_notifier_call (e : event) : bool :=
  match e with Notify _ _ _ => true | _ => false end.

(** The calls of the list and approve actions of the HTTP adapter. *)
Definition is_action_call (e : event) : bool :=
  match e with
  | ListRequests _ | ApproveCode _ _ | LoadConfig | Notify _ _ _ | ReadBody => true
  | _ => false
  end.

Definition is_broadcast (e : event) : bool :=
  match e with Broadcast _ _ _ => true | _ => false end.

Definition is_response (e : event) : bool :=
  match e with
  | Respond _ _ _ | SendJson _ _ => true
  | _ => false
  end.

Definition is_store_or_notifier_call (e : event) : bool :=
  is_store_call e || is_notifier_call e.

(** What the HTTP adapter does before it reaches an action: calls of the
    authorization engine and answers. *)
Definition is_gate_event (e : event) : bool :=
  match e with
  | Authorize _ _ _ | SendJson _ _ => true
  | _ => false
  end.

(** The calls that reach the pairing store or the notifier, in order and
    with their arguments. *)
Definition store_and_notifier_calls (t : list event) : list event :=
  filter is_store_or_notifier_call t.

Definition responses (t : list event) : list event := filter is_response t.

Definition broadcasts (t : list event) : list event := filter is_broadcast t.

(** No event of the trace satisfies [p]. *)
Definition never (p : event -> bool) (t : list event) : Prop :=
  Forall (fun e => p e = false) t.

(** ** The extension pattern, as the specification words it

    "starts with a lowercase letter, at most 64 characters, only lowercase
    letters, digits, [_] and [-]". *)






(** ** Routing and authorization conditions of the HTTP adapter *)

(** The request is under the prefix and its path has the two segments
    [channelRaw] and [action]. *)
Definition routed (req : Request) (channelRaw action : string) : Prop :=
  exists pathname,
    url_pathname req = Some pathname /\
    startsWith PAIRING_BASE_PATH pathname = true /\
    pathParts pathname = [channelRaw; action].

(** Local-direct, or a bearer token that the authorization engine accepts. *)
Definition authorized (env : Env) : Prop :=
  isLocalDirectRequest env = true \/
  exists token,
    truthy_string (getBearerToken env) = Some token /\
    authorizeGatewayConnect env token token = Ok true.

(** Neither local-direct nor carrying a bearer token that the engine accepts. *)
Definition unauthorized (env : Env) : Prop :=
  isLocalDirectRequest env = false /\
  (truthy_string (getBearerToken env) = None \/
   exists token,
     truthy_string (getBearerToken env) = Some token /\
     authorizeGatewayConnect env token token = Ok false).

(** The calls made by the authorization block. *)
Definition auth_calls (env : Env) : list event :=
  if isLocalDirectRequest env then []
  else match truthy_string (getBearerToken env) with
       | Some token => [Authorize token token false]
       | None => []
       end.

(** The authorization engine answers (it does not throw) for the token of
    the request. *)
Definition auth_engine_answers (env : Env) : Prop :=
  forall token, exists ok, authorizeGatewayConnect env token token = Ok ok.

(** The parameters of a gateway call and the body of an HTTP call carry the
    same [code] and the same [notify]. *)
Definition same_code_and_notify (params : value) (req : Request) : Prop :=
  prop params "code" = prop (body_value req) "code" /\
  prop params "notify" = prop (body_value req) "notify".

(** [m] run after the calls [t] have been made. *)
Definition after {A} (t : list event) (m : M A) : M A :=
  ((t ++ trace m)%list, result m).

(** ** Validation failures *)

(** Gateway parameters that fail validation, or whose channel does not
    resolve. *)
Definition list_params_rejected (env : Env) (params : value) : Prop :=
  validateChannelPairListParams params = false \/
  truthy_string (resolveChannel env (as_string (prop params "channel"))) = None.

Definition approve_params_rejected (env : Env) (params : value) : Prop :=
  validateChannelPairApproveParams params = false \/
  truthy_string (resolveChannel env (as_string (prop params "channel"))) = None.

(** An HTTP request with two segments whose channel does not resolve, or
    that asks for approve without a usable [code]. *)
Definition request_rejected (env : Env) (req : Request) : Prop :=
  exists channelRaw action,
    routed req channelRaw action /\
    (truthy_string (resolveChannel env channelRaw) = None \/
     (action = "approve" /\ method req = "POST" /\
      code_of (body_value req) = "")).

(** ** Structured responses *)

(** The handler returns normally after exactly one [respond], which is
    either [(true, payload, undefined)] or [(false, undefined, error)] with
    an error code. *)
Definition structured_gateway_response (m : M unit) : Prop :=
  exists ok payload error,
    result m = Ok tt /\
    responses (trace m) = [Respond ok payload error] /\
    (if ok then payload <> None /\ error = None
     else payload = None /\ exists code msg, error = Some (errorShape code msg)).

(** The handler returns [true] after exactly one [sendJson], whose status is
    one of 200, 400, 401, 404, 500 and whose body has [ok] set exactly when
    the status is 200. *)
Definition structured_http_response (m : M bool) : Prop :=
  exists status body,
    result m = Ok true /\
    responses (trace m) = [SendJson status body] /\
    In status [200; 400; 401; 404; 500]%Z /\
    prop body "ok" = VBool (status =? 200)%Z.

(** ** Sample collaborators and requests *)

Module Sample.

(** An engine that lower-cases ASCII letters only; a store with one
    pending request on every channel, code [123456] and id [req_1]; a
    notifier whose promise rejects; a local caller. *)
Definition env : Env := {|
  toLowerCase := lower_ascii;
  toLowerCase_ascii := fun _ _ => eq_refl;
  listPairingChannels := ["sms"; "telegram"];
  listChannelPairingRequests :=
    fun _ => Ok [VObj [("id", VStr "req_1"); ("code", VStr "123456")]];
  approveChannelPairingCode :=
    fun _ code => if JsString.eqb code "123456" then Ok (Some "req_1") else Ok None;
  loadConfig := Ok (VObj []);
  notifyPairingApproved := fun _ _ _ => Ok (Throw "Error: delivery failed");
  isLocalDirectRequest := true;
  getBearerToken := None;
  authorizeGatewayConnect := fun _ _ => Ok false;
  Date_now := 1700000000000
|}.

(** The same collaborators seen by a remote caller without a token. *)
Definition env_remote : Env := {|
  toLowerCase := toLowerCase env;
  toLowerCase_ascii := toLowerCase_ascii env;
  listPairingChannels := listPairingChannels env;
  listChannelPairingRequests := listChannelPairingRequests env;
  approveChannelPairingCode := approveChannelPairingCode env;
  loadConfig := loadConfig env;
  notifyPairingApproved := notifyPairingApproved env;
  isLocalDirectRequest := false;
  getBearerToken := None;
  authorizeGatewayConnect := authorizeGatewayConnect env;
  Date_now := Date_now env
|}.

(** A remote caller with a token, and an authorization engine that
    rejects its promise. *)
Definition env_auth_down : Env := {|
  toLowerCase := toLowerCase env;
  toLowerCase_ascii := toLowerCase_ascii env;
  listPairingChannels := listPairingChannels env;
  listChannelPairingRequests := listChannelPairingRequests env;
  approveChannelPairingCode := approveChannelPairingCode env;
  loadConfig := loadConfig env;
  notifyPairingApproved := notifyPairingApproved env;
  isLocalDirectRequest := false;
  getBearerToken := Some "secret";
  authorizeGatewayConnect := fun _ _ => Throw "Error: auth backend down";
  Date_now := Date_now env
|}.

Definition approve_params (code notify : value) : value :=
  VObj [("channel", VStr "sms"); ("code", code); ("notify", notify)].

Definition approve_request (code notify : value) : Request := {|
  url_pathname := Some "/api/pairing/sms/approve";
  method := "POST";
  json_body := Some (VObj [("code", code); ("notify", notify)])
|}.

Definition request (pathname meth : string) : Request := {|
  url_pathname := Some pathname;
  method := meth;
  json_body := None
|}.

Definition unparsable_request : Request := {|
  url_pathname := None;
  method := "GET";
  json_body := None
|}.

End Sample.

(** ** Further observations: paths and the order of events *)

(** A path segment: no [/] in it. *)
Definition slash_free (s : string) : Prop :=
  all_chars (fun c => negb (N.eqb c (unit_of "/"))) s = true.

(** The segments written one after the other, each behind a [/]. *)
Fixpoint join_segments (segments : list string) : string :=
  match segments with
  | [] => EmptyString
  | s :: rest => String (unit_of "/") (s ++ join_segments rest)
  end.


(** Every event satisfying [q] comes after some event satisfying [p];
    [seen] tells whether a [p] event has already gone by. *)
Fixpoint each_preceded (p q : event -> bool) (seen : bool) (t : list event) : bool :=
  match t with
  | [] => true
  | e :: rest =>
      (if q e then seen else true) && each_preceded p q (seen || p e) rest
  end.

Definition is_approve_call (e : event) : bool :=
  match e with ApproveCode _ _ => true | _ => false end.

Definition is_authorize_call (e : event) : bool :=
  match e with Authorize _ _ _ => true | _ => false end.

(** The promise of the authorization engine rejects for the token of the
    request. *)
Definition auth_engine_rejects (env : Env) : Prop :=
  isLocalDirectRequest env = false /\
  exists token err,
    truthy_string (getBearerToken env) = Some token /\
    authorizeGatewayConnect env token token = Throw err.

(** At most one event of the trace satisfies [p]. *)
Definition at_most_once (p : event -> bool) (t : list event) : Prop :=
  List.length (filter p t) <= 1.

(** ** Collaborators that fail *)

Module Faulty.

(** The store throws on every call. *)
Definition env_store_down : Env := {|
  toLowerCase := toLowerCase Sample.env;
  toLowerCase_ascii := toLowerCase_ascii Sample.env;
  listPairingChannels := listPairingChannels Sample.env;
  listChannelPairingRequests := fun _ => Throw "Error: store unavailable";
  approveChannelPairingCode := fun _ _ => Throw "Error: store unavailable";
  loadConfig := loadConfig Sample.env;
  notifyPairingApproved := notifyPairingApproved Sample.env;
  isLocalDirectRequest := true;
  getBearerToken := None;
  authorizeGatewayConnect := authorizeGatewayConnect Sample.env;
  Date_now := Date_now Sample.env
|}.

(** The configuration loader throws. *)
Definition env_config_down : Env := {|
  toLowerCase := toLowerCase Sample.env;
  toLowerCase_ascii := toLowerCase_ascii Sample.env;
  listPairingChannels := listPairingChannels Sample.env;
  listChannelPairingRequests := listChannelPairingRequests Sample.env;
  approveChannelPairingCode := approveChannelPairingCode Sample.env;
  loadConfig := Throw "Error: config unreadable";
  notifyPairingApproved := notifyPairingApproved Sample.env;
  isLocalDirectRequest := true;
  getBearerToken := None;
  authorizeGatewayConnect := authorizeGatewayConnect Sample.env;
  Date_now := Date_now Sample.env
|}.

(** A remote caller whose bearer token the engine accepts. *)
Definition env_token : Env := {|
  toLowerCase := toLowerCase Sample.env;
  toLowerCase_ascii := toLowerCase_ascii Sample.env;
  listPairingChannels := listPairingChannels Sample.env;
  listChannelPairingRequests := listChannelPairingRequests Sample.env;
  approveChannelPairingCode := approveChannelPairingCode Sample.env;
  loadConfig := loadConfig Sample.env;
  notifyPairingApproved := fun _ _ _ => Ok (Ok tt);
  isLocalDirectRequest := false;
  getBearerToken := Some "secret";
  authorizeGatewayConnect := fun token _ => Ok (JsString.eqb token "secret");
  Date_now := Date_now Sample.env
|}.

(** The notifier throws before it returns a promise. *)
Definition env_notifier_throws : Env := {|
  toLowerCase := toLowerCase Sample.env;
  toLowerCase_ascii := toLowerCase_ascii Sample.env;
  listPairingChannels := listPairingChannels Sample.env;
  listChannelPairingRequests := listChannelPairingRequests Sample.env;
  approveChannelPairingCode := approveChannelPairingCode Sample.env;
  loadConfig := loadConfig Sample.env;
  notifyPairingApproved := fun _ _ _ => Throw "TypeError: no pairing adapter";
  isLocalDirectRequest := true;
  getBearerToken := None;
  authorizeGatewayConnect := authorizeGatewayConnect Sample.env;
  Date_now := Date_now Sample.env
|}.




End Faulty.

(** * Properties *)

(** ** Strings: equality, trimming and lower-casing *)


Section StringFacts.

Lemma string_eqb_refl (s : string) : JsString.eqb s s = true.
Proof.
  induction s as [|c r IH]; simpl; [reflexivity|].
  now rewrite N.eqb_refl, IH.
Qed.

Lemma string_eqb_eq (s t : string) : JsString.eqb s t = true <-> s = t.
Proof.
  split; [|intros ->; apply string_eqb_refl].
  revert t. induction s as [|c r IH]; intros [|d t]; simpl;
    try discriminate; [reflexivity|].
  intros H. apply andb_true_iff in H as [Hc Hr].
  apply N.eqb_eq in Hc. now rewrite Hc, (IH t Hr).
Qed.

Lemma string_eqb_neq (s t : string) : JsString.eqb s t = false <-> s <> t.
Proof.
  rewrite <- string_eqb_eq. destruct (JsString.eqb s t); split; congruence.
Qed.

Lemma string_eqb_spec (s t : string) : reflect (s = t) (JsString.eqb s t).
Proof.
  destruct (JsString.eqb s t) eqn:E; constructor.
  - now apply string_eqb_eq.
  - now apply string_eqb_neq.
Qed.

Lemma string_dec (s t : string) : {s = t} + {s <> t}.
Proof.
  destruct (JsString.eqb s t) eqn:E.
  - left. now apply string_eqb_eq.
  - right. now apply string_eqb_neq.
Qed.

Lemma append_empty_r (s : string) : s ++ "" = s.
Proof. induction s as [|c r IH]; simpl; congruence. Qed.







Lemma lower_ascii_unit_idempotent (c : unit16) :
  lower_ascii_unit (lower_ascii_unit c) = lower_ascii_unit c.
Proof.
  unfold lower_ascii_unit. destruct (between 65 90 c) eqn:E.
  - apply andb_true_iff in E as [H1 H2]. unfold code in *.
    apply N.leb_le in H1, H2. unfold between, code.
    destruct (N.leb_spec 65 (c + 32)); destruct (N.leb_spec (c + 32) 90);
      simpl; try reflexivity; lia.
  - now rewrite E.
Qed.

Lemma lower_ascii_idempotent (s : string) :
  lower_ascii (lower_ascii s) = lower_ascii s.
Proof.
  induction s as [|c r IH]; simpl; [reflexivity|].
  now rewrite lower_ascii_unit_idempotent, IH.
Qed.





(** The engine's [toLowerCase] on what the adapters can tell about it. *)
Lemma toLowerCase_empty (env : Env) : toLowerCase env "" = "".
Proof. now rewrite (toLowerCase_ascii env "" eq_refl). Qed.

Lemma toLowerCase_nonempty (env : Env) (s : string) :
  is_empty (toLowerCase env s) = false -> is_empty s = false.
Proof.
  destruct s; [|reflexivity]. now rewrite toLowerCase_empty.
Qed.









End StringFacts.

(** ** The extension pattern: the test of the code against the words of the
    specification *)

Section PatternFacts.








End PatternFacts.

(** ** Channel resolution *)



(** ** The HTTP adapter, stage by stage *)

Ltac unfold_monad :=
  unfold after, trace, result, bind, try_catch, call, emit, ret, throw,
    Gateway.respond, Http.sendJson in *.

Section HttpStages.

Variable env : Env.
Variable req : Request.

Lemma not_under_prefix pathname :
  url_pathname req = Some pathname ->
  startsWith PAIRING_BASE_PATH pathname = false ->
  handlePairingHttpRequest env req = ret false.
Proof.
  intros Hp Hs. unfold handlePairingHttpRequest. now rewrite Hp, Hs.
Qed.

Lemma wrong_segment_count pathname :
  url_pathname req = Some pathname ->
  startsWith PAIRING_BASE_PATH pathname = true ->
  List.length (pathParts pathname) <> 2 ->
  handlePairingHttpRequest env req =
    ([SendJson 404 (error_body "Not Found")], Ok true).
Proof.
  intros Hp Hs Hn. unfold handlePairingHttpRequest. rewrite Hp, Hs. simpl.
  destruct (pathParts pathname) as [|a [|b [|c l]]]; simpl in Hn;
    try reflexivity.
  congruence.
Qed.

Lemma routed_invalid_channel channelRaw action :
  routed req channelRaw action ->
  truthy_string (resolveChannel env channelRaw) = None ->
  handlePairingHttpRequest env req =
    ([SendJson 400 (error_body ("Invalid channel: " ++ channelRaw))], Ok true).
Proof.
  intros (pathname & Hp & Hs & Hparts) Hch.
  unfold handlePairingHttpRequest. rewrite Hp, Hs, Hparts. simpl.
  now rewrite Hch.
Qed.

Lemma routed_unauthorized channelRaw action channel :
  routed req channelRaw action ->
  truthy_string (resolveChannel env channelRaw) = Some channel ->
  unauthorized env ->
  handlePairingHttpRequest env req =
    ((auth_calls env ++ [SendJson 401 (error_body "Unauthorized")])%list, Ok true).
Proof.
  intros (pathname & Hp & Hs & Hparts) Hch [Hloc Htok].
  unfold handlePairingHttpRequest, auth_calls.
  rewrite Hp, Hs, Hparts. simpl. rewrite Hch, Hloc. simpl.
  destruct Htok as [Hnone | (token & Htok & Hrej)].
  - now rewrite Hnone.
  - rewrite Htok. unfold_monad. now rewrite Hrej.
Qed.

Lemma routed_authorized channelRaw action channel :
  routed req channelRaw action ->
  truthy_string (resolveChannel env channelRaw) = Some channel ->
  authorized env ->
  handlePairingHttpRequest env req =
    after (auth_calls env) (dispatch env req channel action).
Proof.
  intros (pathname & Hp & Hs & Hparts) Hch Hauth.
  unfold handlePairingHttpRequest, auth_calls.
  rewrite Hp, Hs, Hparts. simpl. rewrite Hch.
  destruct (isLocalDirectRequest env) eqn:Hloc; simpl.
  - unfold after. simpl. now destruct (dispatch env req channel action).
  - destruct Hauth as [Hl | (token & Htok & Hok)]; [congruence|].
    rewrite Htok. unfold_monad. rewrite Hok. simpl.
    now destruct (dispatch env req channel action).
Qed.

Lemma routed_auth_throws channelRaw action channel token err :
  routed req channelRaw action ->
  truthy_string (resolveChannel env channelRaw) = Some channel ->
  isLocalDirectRequest env = false ->
  truthy_string (getBearerToken env) = Some token ->
  authorizeGatewayConnect env token token = Throw err ->
  handlePairingHttpRequest env req = ([Authorize token token false], Throw err).
Proof.
  intros (pathname & Hp & Hs & Hparts) Hch Hloc Htok Hthrow.
  unfold handlePairingHttpRequest.
  rewrite Hp, Hs, Hparts. simpl. rewrite Hch, Hloc. simpl.
  rewrite Htok. unfold_monad. now rewrite Hthrow.
Qed.

End HttpStages.

(** ** The actions, run to completion *)

Section Actions.

Variable env : Env.

Lemma handle_list_runs channel :
  handle_list env channel =
    match listChannelPairingRequests env channel with
    | Ok requests =>
        ([ListRequests channel; SendJson 200 (list_body channel requests)], Ok true)
    | Throw err =>
        ([ListRequests channel; SendJson 500 (error_body err)], Ok true)
    end.
Proof.
  unfold handle_list. unfold_monad.
  destruct (listChannelPairingRequests env channel); reflexivity.
Qed.

Lemma handle_approve_without_code req channel :
  code_of (body_value req) = "" ->
  handle_approve env req channel =
    ([ReadBody; SendJson 400 (error_body "code is required")], Ok true).
Proof.
  intros Hc. unfold handle_approve, readJsonBody. unfold_monad. simpl.
  now rewrite Hc.
Qed.

Lemma handle_approve_runs req channel :
  let code := code_of (body_value req) in
  code <> "" ->
  handle_approve env req channel =
    after [ReadBody; ApproveCode channel code]
      match approveChannelPairingCode env channel code with
      | Throw err => ([SendJson 500 (error_body err)], Ok true)
      | Ok None =>
          ([SendJson 404
              (error_body ("No pending pairing request found for code: " ++ code))],
           Ok true)
      | Ok (Some id) =>
          if notify_of (body_value req) then
            match loadConfig env with
            | Throw err => ([LoadConfig; SendJson 500 (error_body err)], Ok true)
            | Ok cfg =>
                match notifyPairingApproved env channel id cfg with
                | Ok _ =>
                    ([LoadConfig; Notify channel id cfg;
                      SendJson 200 (approve_body channel id)], Ok true)
                | Throw err =>
                    ([LoadConfig; Notify channel id cfg;
                      SendJson 500 (error_body err)], Ok true)
                end
            end
          else ([SendJson 200 (approve_body channel id)], Ok true)
      end.
Proof.
  intros code Hc. unfold handle_approve, readJsonBody. unfold_monad. simpl.
  fold code. destruct code as [|c0 rest] eqn:Ecode; [congruence|]. simpl.
  destruct (approveChannelPairingCode env channel (String c0 rest))
    as [[id|]|err]; simpl; try reflexivity.
  destruct (notify_of (body_value req)); simpl; try reflexivity.
  destruct (loadConfig env) as [cfg|err]; simpl; try reflexivity.
  destruct (notifyPairingApproved env channel id cfg) as [[[]|err]|err];
    reflexivity.
Qed.

(** A body that is malformed, not an object, or without a usable string
    [code] leaves the approve action without a code. *)
Lemma code_of_unusable_body req :
  json_body req = None \/
  (exists body,
      json_body req = Some body /\
      (typeof_string (prop body "code") = false \/
       trim (as_string (prop body "code")) = "")) ->
  code_of (body_value req) = "".
Proof.
  intros Hbody. unfold code_of, body_value.
  destruct Hbody as [-> | (body & -> & Hbad)]; [reflexivity|].
  destruct body; simpl in *; try reflexivity.
  destruct Hbad as [-> | Hblank]; [reflexivity|].
  destruct (typeof_string (lookup "code" fields)); [exact Hblank | reflexivity].
Qed.

Lemma dispatch_list req channel :
  method req = "GET" ->
  dispatch env req channel "list" = handle_list env channel.
Proof. intros Hm. unfold dispatch. now rewrite Hm. Qed.

Lemma dispatch_approve req channel :
  method req = "POST" ->
  dispatch env req channel "approve" = handle_approve env req channel.
Proof. intros Hm. unfold dispatch. now rewrite Hm. Qed.

Lemma dispatch_unknown req channel action :
  ~ (action = "list" /\ method req = "GET") ->
  ~ (action = "approve" /\ method req = "POST") ->
  dispatch env req channel action =
    ([SendJson 404 (error_body "Not Found")], Ok true).
Proof.
  intros Hl Ha. unfold dispatch.
  destruct (string_eqb_spec action "list") as [E1|N1];
    destruct (string_eqb_spec (method req) "GET") as [E2|N2];
    destruct (string_eqb_spec action "approve") as [E3|N3];
    destruct (string_eqb_spec (method req) "POST") as [E4|N4];
    simpl; try reflexivity; tauto.
Qed.

(** A channel that resolves to a usable value comes from a raw string
    that is not blank. *)
Lemma resolved_channel raw channel :
  truthy_string (resolveChannel env raw) = Some channel ->
  channel = toLowerCase env (trim raw) /\
  (0 <? JsString.length (trim raw))%nat = true.
Proof.
  unfold resolveChannel, truthy_string.
  set (value := toLowerCase env (trim raw)).
  assert (Hv : is_empty value = false ->
               (0 <? JsString.length (trim raw))%nat = true).
  { subst value. intros H. apply toLowerCase_nonempty in H.
    destruct (trim raw); [discriminate | reflexivity]. }
  destruct (includes _ value); [|destruct (extension_pattern_test value)];
    try discriminate;
    destruct (is_empty value) eqn:E; try discriminate;
    intros H; inversion H; subst; auto.
Qed.

Lemma channel_pair_list_runs params raw channel :
  prop params "channel" = VStr raw ->
  truthy_string (resolveChannel env raw) = Some channel ->
  channel_pair_list env params =
    match listChannelPairingRequests env channel with
    | Ok requests =>
        ([ListRequests channel;
          Respond true (Some (list_payload channel requests)) None], Ok tt)
    | Throw err =>
        ([ListRequests channel;
          Respond false None (Some (errorShape UNAVAILABLE err))], Ok tt)
    end.
Proof.
  intros Hp Hch. destruct (resolved_channel _ _ Hch) as [_ Hlen].
  unfold channel_pair_list, validateChannelPairListParams.
  destruct params; try discriminate Hp. simpl in *.
  rewrite Hp. simpl. rewrite Hlen. simpl. rewrite Hch. unfold_monad.
  destruct (listChannelPairingRequests env channel); reflexivity.
Qed.

Lemma channel_pair_approve_runs params raw code channel :
  prop params "channel" = VStr raw ->
  prop params "code" = VStr code ->
  trim code <> "" ->
  truthy_string (resolveChannel env raw) = Some channel ->
  channel_pair_approve env params =
    after [ApproveCode channel code]
      match approveChannelPairingCode env channel code with
      | Throw err =>
          ([Respond false None (Some (errorShape UNAVAILABLE err))], Ok tt)
      | Ok None =>
          ([Respond false None
              (Some (errorShape INVALID_REQUEST
                       ("no pending pairing request found for code: " ++ code)))],
           Ok tt)
      | Ok (Some id) =>
          after [LogInfo ("channel pairing approved channel=" ++ channel
                          ++ " id=" ++ id);
                 Broadcast "channel.pair.resolved"
                           (resolved_event env channel id) true]
            (if truthy (prop params "notify") then
               match loadConfig env with
               | Throw err =>
                   ([LoadConfig;
                     Respond false None (Some (errorShape UNAVAILABLE err))], Ok tt)
               | Ok cfg =>
                   match notifyPairingApproved env channel id cfg with
                   | Ok (Ok _) =>
                       ([LoadConfig; Notify channel id cfg;
                         Respond true (Some (approve_payload channel id)) None],
                        Ok tt)
                   | Ok (Throw err) =>
                       ([LoadConfig; Notify channel id cfg;
                         LogWarn ("failed to notify pairing requester: " ++ err);
                         Respond true (Some (approve_payload channel id)) None],
                        Ok tt)
                   | Throw err =>
                       ([LoadConfig; Notify channel id cfg;
                         Respond false None (Some (errorShape UNAVAILABLE err))],
                        Ok tt)
                   end
               end
             else ([Respond true (Some (approve_payload channel id)) None], Ok tt))
      end.
Proof.
  intros Hp Hc Hcode Hch. destruct (resolved_channel _ _ Hch) as [_ Hlen].
  assert (Hclen : (0 <? JsString.length (trim code))%nat = true)
    by (destruct (trim code); [congruence | reflexivity]).
  unfold channel_pair_approve, validateChannelPairApproveParams.
  destruct params; try discriminate Hp. simpl in *.
  rewrite Hp, Hc. simpl. rewrite Hlen, Hclen. simpl. rewrite Hch.
  unfold_monad.
  destruct (approveChannelPairingCode env channel code) as [[id|]|err];
    simpl; try reflexivity.
  destruct (truthy (lookup "notify" fields)); simpl; try reflexivity.
  destruct (loadConfig env) as [cfg|err]; simpl; try reflexivity.
  destruct (notifyPairingApproved env channel id cfg) as [[[]|err]|err];
    reflexivity.
Qed.

(** Parameters that do not pass validation, or whose channel does not
    resolve: the gateway answers at once. *)
Lemma channel_pair_approve_rejects params :
  validateChannelPairApproveParams params = false \/
  truthy_string (resolveChannel env (as_string (prop params "channel"))) = None ->
  exists msg,
    channel_pair_approve env params =
      ([Respond false None (Some (errorShape INVALID_REQUEST msg))], Ok tt).
Proof.
  intros H. unfold channel_pair_approve.
  destruct (validateChannelPairApproveParams params); simpl.
  - destruct H as [H|H]; [discriminate|]. rewrite H. eexists. reflexivity.
  - eexists. reflexivity.
Qed.

Lemma channel_pair_list_rejects params :
  validateChannelPairListParams params = false \/
  truthy_string (resolveChannel env (as_string (prop params "channel"))) = None ->
  exists msg,
    channel_pair_list env params =
      ([Respond false None (Some (errorShape INVALID_REQUEST msg))], Ok tt).
Proof.
  intros H. unfold channel_pair_list.
  destruct (validateChannelPairListParams params); simpl.
  - destruct H as [H|H]; [discriminate|]. rewrite H. eexists. reflexivity.
  - eexists. reflexivity.
Qed.

End Actions.

(** ** Not-found against invalid-request *)

(** C1, counterexample.  On the gateway a well-formed approve whose code
    matches no pending request is answered with [INVALID_REQUEST], the code
    of a validation error. *)
Lemma gateway_no_match_is_invalid_request :
  channel_pair_approve Sample.env (Sample.approve_params (VStr "000000") VUndefined) =
    ([ApproveCode "sms" "000000";
      Respond false None
        (Some (errorShape INVALID_REQUEST
                 "no pending pairing request found for code: 000000"))],
     Ok tt) /\
  channel_pair_approve Sample.env (Sample.approve_params VUndefined VUndefined) =
    ([Respond false None
        (Some (errorShape INVALID_REQUEST
                 "invalid channel.pair.approve params: channel (string) and code (string) required"))],
     Ok tt).
Proof. split; reflexivity. Qed.

(** C1, as amended.  For well-formed input whose channel resolves, when the
    store's approve-by-code operation returns no match: the HTTP adapter
    answers 404 with "No pending pairing request found for code: ...", a
    status other than the 400 of an invalid request; the gateway adapter
    answers with error code [INVALID_REQUEST] and the message "no pending
    pairing request found for code: ...". *)
Theorem no_match_is_reported_per_adapter
    (env : Env) (raw code channel : string) :
  truthy_string (resolveChannel env raw) = Some channel ->
  trim code <> "" ->
  (forall params,
      prop params "channel" = VStr raw ->
      prop params "code" = VStr code ->
      approveChannelPairingCode env channel code = Ok None ->
      channel_pair_approve env params =
        ([ApproveCode channel code;
          Respond false None
            (Some (errorShape INVALID_REQUEST
                     ("no pending pairing request found for code: " ++ code)))],
         Ok tt)) /\
  (forall req,
      routed req raw "approve" ->
      method req = "POST" ->
      authorized env ->
      prop (body_value req) "code" = VStr code ->
      approveChannelPairingCode env channel (trim code) = Ok None ->
      handlePairingHttpRequest env req =
        after (auth_calls env)
          ([ReadBody; ApproveCode channel (trim code);
            SendJson 404
              (error_body ("No pending pairing request found for code: " ++ trim code))],
           Ok true)).
Proof.
  intros Hch Hcode. split.
  - intros params Hp Hc Hstore.
    rewrite (channel_pair_approve_runs env params raw code channel Hp Hc Hcode Hch).
    now rewrite Hstore.
  - intros req Hroute Hm Hauth Hbody Hstore.
    rewrite (routed_authorized env req raw "approve" channel Hroute Hch Hauth).
    rewrite (dispatch_approve env req channel Hm).
    assert (Hc : code_of (body_value req) = trim code)
      by (unfold code_of; now rewrite Hbody).
    pose proof (handle_approve_runs env req channel) as Hrun.
    simpl in Hrun. rewrite Hc in Hrun. rewrite (Hrun Hcode), Hstore.
    reflexivity.
Qed.

Lemma no_match_is_reported_per_adapter_witness :
  channel_pair_approve Sample.env (Sample.approve_params (VStr "000000") VUndefined) =
    ([ApproveCode "sms" "000000";
      Respond false None
        (Some (errorShape INVALID_REQUEST
                 "no pending pairing request found for code: 000000"))],
     Ok tt) /\
  handlePairingHttpRequest Sample.env (Sample.approve_request (VStr "000000") VUndefined) =
    ([ReadBody; ApproveCode "sms" "000000";
      SendJson 404 (error_body "No pending pairing request found for code: 000000")],
     Ok true).
Proof.
  assert (Hch : truthy_string (resolveChannel Sample.env "sms") = Some "sms")
    by reflexivity.
  assert (Hcode : trim "000000" <> "") by discriminate.
  destruct (no_match_is_reported_per_adapter Sample.env "sms" "000000" "sms" Hch Hcode)
    as [Hgateway Hhttp].
  split.
  - apply Hgateway; reflexivity.
  - apply (Hhttp (Sample.approve_request (VStr "000000") VUndefined)).
    + exists "/api/pairing/sms/approve". repeat split.
    + reflexivity.
    + left. reflexivity.
    + reflexivity.
    + reflexivity.
Defined.

(** ** Authorization on the HTTP adapter *)

(** C3, counterexample.  A remote caller without a bearer token that names
    a channel of invalid syntax is answered 400, not 401: the channel is
    resolved before the authorization block.  And a remote caller whose
    token makes the authorization engine throw is not answered at all: the
    handler throws after the call of the engine. *)
Lemma unauthorized_invalid_channel_gets_400 :
  unauthorized Sample.env_remote /\
  handlePairingHttpRequest Sample.env_remote
    (Sample.request "/api/pairing/xyz!/approve" "POST") =
    ([SendJson 400 (VObj [("ok", VBool false);
                          ("error", VStr "Invalid channel: xyz!")])], Ok true) /\
  ~ authorized Sample.env_auth_down /\
  handlePairingHttpRequest Sample.env_auth_down
    (Sample.request "/api/pairing/sms/approve" "POST") =
    ([Authorize "secret" "secret" false], Throw "Error: auth backend down").
Proof.
  split; [|split; [|split]]; try reflexivity.
  - split; [reflexivity | left; reflexivity].
  - intros [H | (token & Htok & Hok)]; [discriminate H|].
    simpl in Hok. discriminate Hok.
Qed.

(** C3, as amended.  On the HTTP adapter, for every request under the prefix
    with exactly two path segments that is not local-direct and either
    carries no bearer token or carries one that the authorization engine
    answers with not-ok: when the channel resolves, the response is 401
    "Unauthorized", produced after at most the call of the engine and before
    any action logic runs (no body is read, the store, the configuration
    loader and the notifier are not called); when the channel does not
    resolve, the response is the 400 of an invalid channel, since the path is
    parsed and the channel resolved before the authorization block. *)
Theorem unauthorized_before_action
    (env : Env) (req : Request) (channelRaw action : string) :
  routed req channelRaw action ->
  unauthorized env ->
  match truthy_string (resolveChannel env channelRaw) with
  | Some channel =>
      handlePairingHttpRequest env req =
        ((auth_calls env ++
          [SendJson 401 (VObj [("ok", VBool false);
                               ("error", VStr "Unauthorized")])])%list,
         Ok true) /\
      never is_action_call (trace (handlePairingHttpRequest env req))
  | None =>
      handlePairingHttpRequest env req =
        ([SendJson 400 (VObj [("ok", VBool false);
                              ("error", VStr ("Invalid channel: " ++ channelRaw))])],
         Ok true)
  end.
Proof.
  intros Hroute Hun.
  destruct (truthy_string (resolveChannel env channelRaw)) as [channel|] eqn:Hch.
  - rewrite (routed_unauthorized env req channelRaw action channel Hroute Hch Hun).
    split; [reflexivity|].
    unfold auth_calls, never. destruct Hun as [Hloc _]. rewrite Hloc.
    destruct (truthy_string (getBearerToken env)); simpl; repeat constructor.
  - apply (routed_invalid_channel env req channelRaw action Hroute Hch).
Qed.

Lemma unauthorized_before_action_witness :
  (handlePairingHttpRequest Sample.env_remote
     (Sample.request "/api/pairing/sms/approve" "POST") =
     ([SendJson 401 (VObj [("ok", VBool false);
                           ("error", VStr "Unauthorized")])], Ok true) /\
   never is_action_call
     (trace (handlePairingHttpRequest Sample.env_remote
               (Sample.request "/api/pairing/sms/approve" "POST")))) /\
  handlePairingHttpRequest Sample.env_remote
    (Sample.request "/api/pairing/xyz!/approve" "POST") =
    ([SendJson 400 (VObj [("ok", VBool false);
                          ("error", VStr "Invalid channel: xyz!")])], Ok true).
Proof.
  assert (Hun : unauthorized Sample.env_remote)
    by (split; [reflexivity | left; reflexivity]).
  split.
  - apply (unauthorized_before_action Sample.env_remote
             (Sample.request "/api/pairing/sms/approve" "POST")
             "sms" "approve"); [|exact Hun].
    exists "/api/pairing/sms/approve". repeat split.
  - apply (unauthorized_before_action Sample.env_remote
             (Sample.request "/api/pairing/xyz!/approve" "POST")
             "xyz!" "approve"); [|exact Hun].
    exists "/api/pairing/xyz!/approve". repeat split.
Defined.

(** ** Every path through an adapter ends in one response *)

Ltac one_http_response :=
  do 2 eexists;
  split; [reflexivity | split; [reflexivity | split; [simpl; tauto | reflexivity]]].

Ltac one_gateway_response :=
  do 3 eexists;
  split; [reflexivity | split; [reflexivity | simpl ]].

Section Completion.

Variable env : Env.

Lemma dispatch_structured req channel action :
  structured_http_response (dispatch env req channel action).
Proof.
  unfold dispatch.
  destruct (JsString.eqb action "list" && JsString.eqb (method req) "GET").
  - rewrite handle_list_runs.
    destruct (listChannelPairingRequests env channel); one_http_response.
  - destruct (JsString.eqb action "approve" && JsString.eqb (method req) "POST");
      [|one_http_response].
    destruct (string_dec (code_of (body_value req)) "") as [E|N].
    + rewrite (handle_approve_without_code env req channel E).
      one_http_response.
    + rewrite (handle_approve_runs env req channel N).
      destruct (approveChannelPairingCode env channel _) as [[id|]|err];
        try one_http_response.
      destruct (notify_of (body_value req)); try one_http_response.
      destruct (loadConfig env) as [cfg|err]; [|one_http_response].
      destruct (notifyPairingApproved env channel id cfg); one_http_response.
Qed.

Lemma after_structured t (m : M bool) :
  never is_response t ->
  structured_http_response m -> structured_http_response (after t m).
Proof.
  intros Ht (status & body & Hr & Hresp & Hs & Hok).
  exists status, body. repeat split; auto.
  unfold after, responses, trace in *. simpl.
  rewrite filter_app, Hresp.
  replace (filter is_response t) with (@nil event); [reflexivity|].
  symmetry. induction Ht as [|e l He _ IH]; simpl; [reflexivity|].
  now rewrite He.
Qed.

Lemma auth_calls_no_response : never is_response (auth_calls env).
Proof.
  unfold auth_calls, never.
  destruct (isLocalDirectRequest env); [constructor|].
  destruct (truthy_string (getBearerToken env)); repeat constructor.
Qed.

Lemma handle_structured req pathname :
  url_pathname req = Some pathname ->
  startsWith PAIRING_BASE_PATH pathname = true ->
  auth_engine_answers env ->
  structured_http_response (handlePairingHttpRequest env req).
Proof.
  intros Hp Hs Hauth.
  destruct (Nat.eq_dec (List.length (pathParts pathname)) 2) as [E|N].
  2:{ rewrite (wrong_segment_count env req pathname Hp Hs N).
      one_http_response. }
  destruct (pathParts pathname) as [|raw [|action [|x l]]] eqn:Hparts;
    try discriminate E.
  assert (Hroute : routed req raw action) by (exists pathname; auto).
  destruct (truthy_string (resolveChannel env raw)) as [channel|] eqn:Hch.
  2:{ rewrite (routed_invalid_channel env req raw action Hroute Hch).
      one_http_response. }
  assert (Hcases : authorized env \/ unauthorized env).
  { unfold authorized, unauthorized.
    destruct (isLocalDirectRequest env); [left; now left|].
    destruct (truthy_string (getBearerToken env)) as [token|] eqn:Htok.
    - destruct (Hauth token) as [[|] Hok].
      + left. right. now exists token.
      + right. split; [reflexivity|]. right. now exists token.
    - right. split; [reflexivity|]. now left. }
  destruct Hcases as [Hyes | Hno].
  - rewrite (routed_authorized env req raw action channel Hroute Hch Hyes).
    apply after_structured; [apply auth_calls_no_response|].
    apply dispatch_structured.
  - rewrite (routed_unauthorized env req raw action channel Hroute Hch Hno).
    change ((auth_calls env ++ [SendJson 401 (error_body "Unauthorized")])%list,
            Ok true)
      with (after (auth_calls env)
              ([SendJson 401 (error_body "Unauthorized")], Ok true)).
    apply after_structured; [apply auth_calls_no_response|].
    one_http_response.
Qed.


Lemma validate_approve_true params :
  validateChannelPairApproveParams params = true ->
  exists raw code,
    prop params "channel" = VStr raw /\ prop params "code" = VStr code /\
    trim code <> "" /\ as_string (prop params "channel") = raw /\
    as_string (prop params "code") = code.
Proof.
  unfold validateChannelPairApproveParams.
  destruct (negb (truthy params) || negb (typeof_object params));
    [discriminate|].
  rewrite !andb_true_iff. intros [[[Hc _] Hk] Hl].
  destruct (prop params "channel") as [| | | |raw| |]; try discriminate Hc.
  destruct (prop params "code") as [| | | |code| |]; try discriminate Hk.
  exists raw, code. simpl in *. repeat split.
  intros E. rewrite E in Hl. discriminate Hl.
Qed.

Lemma validate_list_true params :
  validateChannelPairListParams params = true ->
  exists raw,
    prop params "channel" = VStr raw /\ as_string (prop params "channel") = raw.
Proof.
  unfold validateChannelPairListParams.
  destruct (negb (truthy params) || negb (typeof_object params));
    [discriminate|].
  rewrite !andb_true_iff. intros [Hc _].
  destruct (prop params "channel") as [| | | |raw| |]; try discriminate Hc.
  exists raw. now split.
Qed.

Lemma channel_pair_list_structured params :
  structured_gateway_response (channel_pair_list env params).
Proof.
  destruct (validateChannelPairListParams params) eqn:Hv.
  - destruct (validate_list_true params Hv) as (raw & Hp & Hraw).
    destruct (truthy_string (resolveChannel env raw)) as [channel|] eqn:Hch.
    + rewrite (channel_pair_list_runs env params raw channel Hp Hch).
      destruct (listChannelPairingRequests env channel);
        one_gateway_response; eauto. split; [discriminate | reflexivity].
    + destruct (channel_pair_list_rejects env params) as [msg ->].
      * right. now rewrite Hraw.
      * one_gateway_response; eauto.
  - destruct (channel_pair_list_rejects env params) as [msg ->];
      [now left|].
    one_gateway_response; eauto.
Qed.

Lemma channel_pair_approve_structured params :
  structured_gateway_response (channel_pair_approve env params).
Proof.
  destruct (validateChannelPairApproveParams params) eqn:Hv.
  - destruct (validate_approve_true params Hv)
      as (raw & code & Hp & Hc & Hcode & Hraw & _).
    destruct (truthy_string (resolveChannel env raw)) as [channel|] eqn:Hch.
    + rewrite (channel_pair_approve_runs env params raw code channel
                 Hp Hc Hcode Hch).
      destruct (approveChannelPairingCode env channel code) as [[id|]|err];
        [| one_gateway_response; eauto | one_gateway_response; eauto].
      destruct (truthy (prop params "notify"));
        [| one_gateway_response; split; [discriminate | reflexivity]].
      destruct (loadConfig env) as [cfg|err];
        [| one_gateway_response; eauto].
      destruct (notifyPairingApproved env channel id cfg) as [[?|?]|?];
        one_gateway_response;
        first [split; [discriminate | reflexivity] | eauto].
    + destruct (channel_pair_approve_rejects env params) as [msg ->].
      * right. now rewrite Hraw.
      * one_gateway_response; eauto.
  - destruct (channel_pair_approve_rejects env params) as [msg ->];
      [now left|].
    one_gateway_response; eauto.
Qed.

End Completion.

(** C8, counterexample.  The promise of the authorization engine is
    awaited outside every [try]: when it rejects, the HTTP handler rejects
    too and nothing is sent.  A request target that [new URL] refuses makes
    the handler throw in its first statement. *)
Lemma http_handler_lets_exceptions_through :
  handlePairingHttpRequest Sample.env_auth_down
    (Sample.request "/api/pairing/sms/list" "GET") =
    ([Authorize "secret" "secret" false], Throw "Error: auth backend down") /\
  handlePairingHttpRequest Sample.env Sample.unparsable_request =
    ([], Throw "TypeError: Invalid URL").
Proof. split; reflexivity. Qed.

(** C8, as amended.  Whatever the store, the notifier and the configuration
    loader do (answer, throw or reject), each gateway operation returns
    normally after exactly one [respond] carrying the success flag and, on
    failure, an error code; and the HTTP adapter, for a request under the
    prefix whose URL parses and an authorization engine that answers,
    returns [true] after exactly one [sendJson] whose status is 200, 400,
    401, 404 or 500 and whose [ok] flag tells success. *)
Theorem adapters_answer_when_store_or_notifier_fail (env : Env) :
  (forall params, structured_gateway_response (channel_pair_list env params)) /\
  (forall params, structured_gateway_response (channel_pair_approve env params)) /\
  (forall req pathname,
      url_pathname req = Some pathname ->
      startsWith PAIRING_BASE_PATH pathname = true ->
      auth_engine_answers env ->
      structured_http_response (handlePairingHttpRequest env req)).
Proof.
  split; [|split].
  - apply channel_pair_list_structured.
  - apply channel_pair_approve_structured.
  - intros req pathname. apply handle_structured.
Qed.

Lemma adapters_answer_when_store_or_notifier_fail_witness :
  structured_http_response
    (handlePairingHttpRequest Sample.env
       (Sample.approve_request (VStr "123456") (VBool true))).
Proof.
  destruct (adapters_answer_when_store_or_notifier_fail Sample.env)
    as (_ & _ & Hhttp).
  apply (Hhttp _ "/api/pairing/sms/approve").
  - reflexivity.
  - reflexivity.
  - intros token. exists false. reflexivity.
Defined.

(** ** Routing on the HTTP adapter *)

(** C9, counterexample.  A request with two segments and an unknown
    action is answered 400 when its channel does not resolve, and 401 when
    it is not authorized: 404 is not the answer to every such request. *)
Lemma unknown_action_is_not_always_404 :
  handlePairingHttpRequest Sample.env
    (Sample.request "/api/pairing/xyz!/foo" "DELETE") =
    ([SendJson 400 (VObj [("ok", VBool false);
                          ("error", VStr "Invalid channel: xyz!")])], Ok true) /\
  handlePairingHttpRequest Sample.env_remote
    (Sample.request "/api/pairing/sms/foo" "DELETE") =
    ([SendJson 401 (VObj [("ok", VBool false);
                          ("error", VStr "Unauthorized")])], Ok true).
Proof. split; reflexivity. Qed.

(** C9, as amended.  The HTTP adapter answers 404 to every request under the
    prefix whose path does not have exactly two non-empty segments after the
    prefix.  For a request with two segments whose channel resolves and that
    passes authorization: it answers 404 when (method, action) is neither
    GET/list nor POST/approve; GET .../list performs List (one call of the
    store with the resolved channel, then 200 with the store's requests, or
    500 with the text of the store's error); POST .../approve performs
    Approve, where a body that is malformed or not JSON, or that has no
    usable string [code], is answered 400 "code is required" once the body is
    read, and any other body leads to one call of the store with the resolved
    channel and the trimmed code, answered 404 on no match, 500 on a store,
    configuration or synchronous notifier error and 200 otherwise. *)
Theorem http_routing (env : Env) (req : Request) :
  (forall pathname,
      url_pathname req = Some pathname ->
      startsWith PAIRING_BASE_PATH pathname = true ->
      List.length (pathParts pathname) <> 2 ->
      handlePairingHttpRequest env req =
        ([SendJson 404 (VObj [("ok", VBool false); ("error", VStr "Not Found")])],
         Ok true)) /\
  (forall channelRaw action channel,
      routed req channelRaw action ->
      truthy_string (resolveChannel env channelRaw) = Some channel ->
      authorized env ->
      (~ (action = "list" /\ method req = "GET") ->
       ~ (action = "approve" /\ method req = "POST") ->
       handlePairingHttpRequest env req =
         after (auth_calls env)
           ([SendJson 404 (VObj [("ok", VBool false); ("error", VStr "Not Found")])],
            Ok true)) /\
      (action = "list" -> method req = "GET" ->
       handlePairingHttpRequest env req =
         after (auth_calls env)
           match listChannelPairingRequests env channel with
           | Ok requests =>
               ([ListRequests channel;
                 SendJson 200
                   (VObj [("ok", VBool true); ("channel", VStr channel);
                          ("requests", VArr requests)])], Ok true)
           | Throw err =>
               ([ListRequests channel;
                 SendJson 500 (VObj [("ok", VBool false); ("error", VStr err)])],
                Ok true)
           end) /\
      (action = "approve" -> method req = "POST" ->
       (json_body req = None \/
        (exists body,
            json_body req = Some body /\
            (typeof_string (prop body "code") = false \/
             trim (as_string (prop body "code")) = "")) ->
        handlePairingHttpRequest env req =
          after (auth_calls env)
            ([ReadBody;
              SendJson 400
                (VObj [("ok", VBool false); ("error", VStr "code is required")])],
             Ok true)) /\
       (forall body code,
           json_body req = Some body ->
           prop body "code" = VStr code ->
           trim code <> "" ->
           handlePairingHttpRequest env req =
             after (auth_calls env)
               (after [ReadBody; ApproveCode channel (trim code)]
                  match approveChannelPairingCode env channel (trim code) with
                  | Throw err =>
                      ([SendJson 500
                          (VObj [("ok", VBool false); ("error", VStr err)])],
                       Ok true)
                  | Ok None =>
                      ([SendJson 404
                          (VObj [("ok", VBool false);
                                 ("error",
                                  VStr ("No pending pairing request found for code: "
                                        ++ trim code))])],
                       Ok true)
                  | Ok (Some id) =>
                      let done :=
                        SendJson 200
                          (VObj [("ok", VBool true); ("channel", VStr channel);
                                 ("id", VStr id); ("approved", VBool true)]) in
                      if is_true (prop body "notify") then
                        match loadConfig env with
                        | Throw err =>
                            ([LoadConfig;
                              SendJson 500
                                (VObj [("ok", VBool false); ("error", VStr err)])],
                             Ok true)
                        | Ok cfg =>
                            match notifyPairingApproved env channel id cfg with
                            | Ok _ =>
                                ([LoadConfig; Notify channel id cfg; done], Ok true)
                            | Throw err =>
                                ([LoadConfig; Notify channel id cfg;
                                  SendJson 500
                                    (VObj [("ok", VBool false);
                                           ("error", VStr err)])],
                                 Ok true)
                            end
                        end
                      else ([done], Ok true)
                  end)))).
Proof.
  split.
  - intros pathname. apply wrong_segment_count.
  - intros channelRaw action channel Hroute Hch Hauth.
    rewrite (routed_authorized env req channelRaw action channel Hroute Hch Hauth).
    split; [|split].
    + intros Hl Ha. now rewrite (dispatch_unknown env req channel action Hl Ha).
    + intros -> Hm. now rewrite (dispatch_list env req channel Hm), handle_list_runs.
    + intros -> Hm. rewrite (dispatch_approve env req channel Hm).
      split.
      * intros Hbody.
        rewrite (handle_approve_without_code env req channel); [reflexivity|].
        unfold code_of, body_value.
        destruct Hbody as [-> | (body & -> & Hbad)]; [reflexivity|].
        destruct body; simpl in *; try reflexivity.
        destruct Hbad as [-> | Hblank]; [reflexivity|].
        destruct (typeof_string (lookup "code" fields)); [exact Hblank | reflexivity].
      * intros body code Hbody Hcode Hne.
        assert (Hvalue : body_value req = body).
        { unfold body_value. rewrite Hbody.
          destruct body; try discriminate Hcode. reflexivity. }
        assert (Ecode : code_of (body_value req) = trim code).
        { unfold code_of. now rewrite Hvalue, Hcode. }
        pose proof (handle_approve_runs env req channel) as Hrun.
        simpl in Hrun. rewrite Ecode in Hrun. rewrite (Hrun Hne).
        unfold notify_of. rewrite Hvalue. reflexivity.
Qed.

Lemma http_routing_witness :
  handlePairingHttpRequest Sample.env (Sample.request "/api/pairing/sms" "GET") =
    ([SendJson 404 (VObj [("ok", VBool false); ("error", VStr "Not Found")])],
     Ok true) /\
  handlePairingHttpRequest Sample.env (Sample.request "/api/pairing/sms/list" "POST") =
    ([SendJson 404 (VObj [("ok", VBool false); ("error", VStr "Not Found")])],
     Ok true) /\
  handlePairingHttpRequest Sample.env (Sample.request "/api/pairing/sms/list" "GET") =
    ([ListRequests "sms";
      SendJson 200
        (VObj [("ok", VBool true); ("channel", VStr "sms");
               ("requests",
                VArr [VObj [("id", VStr "req_1"); ("code", VStr "123456")]])])],
     Ok true) /\
  handlePairingHttpRequest Sample.env (Sample.request "/api/pairing/sms/approve" "POST") =
    ([ReadBody;
      SendJson 400 (VObj [("ok", VBool false); ("error", VStr "code is required")])],
     Ok true) /\
  handlePairingHttpRequest Sample.env
    (Sample.approve_request (VStr " 123456 ") (VBool true)) =
    ([ReadBody; ApproveCode "sms" "123456"; LoadConfig;
      Notify "sms" "req_1" (VObj []);
      SendJson 200
        (VObj [("ok", VBool true); ("channel", VStr "sms"); ("id", VStr "req_1");
               ("approved", VBool true)])],
     Ok true).
Proof.
  assert (Hlocal : authorized Sample.env) by (left; reflexivity).
  split; [|split; [|split; [|split]]].
  - destruct (http_routing Sample.env (Sample.request "/api/pairing/sms" "GET"))
      as [Hcount _].
    apply (Hcount "/api/pairing/sms"); [reflexivity | reflexivity | discriminate].
  - destruct (http_routing Sample.env (Sample.request "/api/pairing/sms/list" "POST"))
      as [_ Hroute].
    destruct (Hroute "sms" "list" "sms") as (Hunknown & _ & _).
    + exists "/api/pairing/sms/list". repeat split.
    + reflexivity.
    + exact Hlocal.
    + apply Hunknown; intros [H1 H2]; discriminate.
  - destruct (http_routing Sample.env (Sample.request "/api/pairing/sms/list" "GET"))
      as [_ Hroute].
    destruct (Hroute "sms" "list" "sms") as (_ & Hlist & _).
    + exists "/api/pairing/sms/list". repeat split.
    + reflexivity.
    + exact Hlocal.
    + exact (Hlist eq_refl eq_refl).
  - destruct (http_routing Sample.env (Sample.request "/api/pairing/sms/approve" "POST"))
      as [_ Hroute].
    destruct (Hroute "sms" "approve" "sms") as (_ & _ & Happrove).
    + exists "/api/pairing/sms/approve". repeat split.
    + reflexivity.
    + exact Hlocal.
    + destruct (Happrove eq_refl eq_refl) as [Hnocode _].
      apply Hnocode. left. reflexivity.
  - destruct (http_routing Sample.env
                (Sample.approve_request (VStr " 123456 ") (VBool true)))
      as [_ Hroute].
    destruct (Hroute "sms" "approve" "sms") as (_ & _ & Happrove).
    + exists "/api/pairing/sms/approve". repeat split.
    + reflexivity.
    + exact Hlocal.
    + destruct (Happrove eq_refl eq_refl) as [_ Hrun].
      apply (Hrun (VObj [("code", VStr " 123456 "); ("notify", VBool true)])
               " 123456 "); [reflexivity | reflexivity | discriminate].
Defined.



(** ** What can reach the store, the notifier and the broadcast sink *)

Section Reach.

Variable env : Env.

Lemma routed_functional req raw action raw' action' :
  routed req raw action -> routed req raw' action' ->
  raw = raw' /\ action = action'.
Proof.
  intros (p & Hp & _ & Hparts) (p' & Hp' & _ & Hparts').
  rewrite Hp in Hp'. inversion Hp'; subst p'.
  rewrite Hparts in Hparts'. inversion Hparts'. now split.
Qed.

(** Either the handler stops at one of its gates, or it reaches the
    actions with a resolved channel and an authorized caller. *)
Lemma handle_cases req :
  Forall (fun e => is_gate_event e = true)
         (trace (handlePairingHttpRequest env req)) \/
  exists channelRaw action channel,
    routed req channelRaw action /\
    truthy_string (resolveChannel env channelRaw) = Some channel /\
    authorized env /\
    handlePairingHttpRequest env req =
      after (auth_calls env) (dispatch env req channel action).
Proof.
  destruct (url_pathname req) as [pathname|] eqn:Hp.
  2:{ left. unfold handlePairingHttpRequest. rewrite Hp. constructor. }
  destruct (startsWith PAIRING_BASE_PATH pathname) eqn:Hs.
  2:{ left. rewrite (not_under_prefix env req pathname Hp Hs). constructor. }
  destruct (Nat.eq_dec (List.length (pathParts pathname)) 2) as [E|N].
  2:{ left. rewrite (wrong_segment_count env req pathname Hp Hs N).
      repeat constructor. }
  destruct (pathParts pathname) as [|raw [|action [|x l]]] eqn:Hparts;
    try discriminate E.
  assert (Hroute : routed req raw action) by (exists pathname; auto).
  destruct (truthy_string (resolveChannel env raw)) as [channel|] eqn:Hch.
  2:{ left. rewrite (routed_invalid_channel env req raw action Hroute Hch).
      repeat constructor. }
  destruct (isLocalDirectRequest env) eqn:Hloc.
  { assert (Hauth : authorized env) by now left.
    right. exists raw, action, channel. repeat split; auto.
    now apply (routed_authorized env req raw action channel). }
  destruct (truthy_string (getBearerToken env)) as [token|] eqn:Htok.
  - destruct (authorizeGatewayConnect env token token) as [[|]|err] eqn:Hok.
    + assert (Hauth : authorized env) by (right; now exists token).
      right. exists raw, action, channel. repeat split; auto.
      now apply (routed_authorized env req raw action channel).
    + left. rewrite (routed_unauthorized env req raw action channel Hroute Hch).
      * unfold auth_calls. rewrite Hloc, Htok. repeat constructor.
      * split; [exact Hloc|]. right. now exists token.
    + left.
      rewrite (routed_auth_throws env req raw action channel token err
                 Hroute Hch Hloc Htok Hok).
      repeat constructor.
  - left. rewrite (routed_unauthorized env req raw action channel Hroute Hch).
    + unfold auth_calls. rewrite Hloc, Htok. repeat constructor.
    + split; [exact Hloc | now left].
Qed.

Lemma never_of_gate (p : event -> bool) t :
  (forall e, is_gate_event e = true -> p e = false) ->
  Forall (fun e => is_gate_event e = true) t -> never p t.
Proof.
  intros Hp Ht. unfold never. eapply Forall_impl; [|exact Ht]. exact Hp.
Qed.

Lemma never_after {A} (p : event -> bool) t (m : M A) :
  never p t -> never p (trace m) -> never p (trace (after t m)).
Proof.
  unfold never, after, trace. simpl. intros Ht Hm.
  apply Forall_app. now split.
Qed.

Lemma never_auth_calls (p : event -> bool) :
  (forall e, is_gate_event e = true -> p e = false) ->
  never p (auth_calls env).
Proof.
  intros Hp. unfold auth_calls, never.
  destruct (isLocalDirectRequest env); [constructor|].
  destruct (truthy_string (getBearerToken env)); repeat constructor.
  now apply Hp.
Qed.

Lemma never_filter_nil (p : event -> bool) t :
  never p t -> filter p t = [].
Proof.
  induction 1 as [|e l He _ IH]; simpl; [reflexivity|]. now rewrite He.
Qed.

Lemma filter_after {A} (p : event -> bool) t (m : M A) :
  filter p (trace (after t m)) = (filter p t ++ filter p (trace m))%list.
Proof. unfold after, trace. simpl. apply filter_app. Qed.

Lemma gate_is_no_store_or_notifier e :
  is_gate_event e = true -> is_store_or_notifier_call e = false.
Proof. destruct e; intros H; try reflexivity; discriminate H. Qed.

Lemma gate_is_no_notifier e :
  is_gate_event e = true -> is_notifier_call e = false.
Proof. destruct e; intros H; try reflexivity; discriminate H. Qed.

Lemma gate_is_no_broadcast e :
  is_gate_event e = true -> is_broadcast e = false.
Proof. destruct e; intros H; try reflexivity; discriminate H. Qed.

Lemma dispatch_never_broadcasts req channel action :
  never is_broadcast (trace (dispatch env req channel action)).
Proof.
  unfold dispatch, never.
  destruct (JsString.eqb action "list" && JsString.eqb (method req) "GET").
  - rewrite handle_list_runs.
    destruct (listChannelPairingRequests env channel); repeat constructor.
  - destruct (JsString.eqb action "approve" && JsString.eqb (method req) "POST");
      [|repeat constructor].
    destruct (string_dec (code_of (body_value req)) "") as [E|N].
    + rewrite (handle_approve_without_code env req channel E).
      repeat constructor.
    + rewrite (handle_approve_runs env req channel N).
      destruct (approveChannelPairingCode env channel _) as [[id|]|err];
        try (repeat constructor).
      destruct (notify_of (body_value req)); try (repeat constructor).
      destruct (loadConfig env) as [cfg|err]; [|repeat constructor].
      destruct (notifyPairingApproved env channel id cfg); repeat constructor.
Qed.

Lemma dispatch_without_notify req channel action :
  notify_of (body_value req) = false ->
  never is_notifier_call (trace (dispatch env req channel action)).
Proof.
  intros Hn. unfold dispatch, never.
  destruct (JsString.eqb action "list" && JsString.eqb (method req) "GET").
  - rewrite handle_list_runs.
    destruct (listChannelPairingRequests env channel); repeat constructor.
  - destruct (JsString.eqb action "approve" && JsString.eqb (method req) "POST");
      [|repeat constructor].
    destruct (string_dec (code_of (body_value req)) "") as [E|N].
    + rewrite (handle_approve_without_code env req channel E).
      repeat constructor.
    + rewrite (handle_approve_runs env req channel N), Hn.
      destruct (approveChannelPairingCode env channel _) as [[id|]|err];
        repeat constructor.
Qed.

Lemma validate_approve_needs_code params :
  typeof_string (prop params "code") = false \/
  trim (as_string (prop params "code")) = "" ->
  validateChannelPairApproveParams params = false.
Proof.
  intros H. unfold validateChannelPairApproveParams.
  destruct (negb (truthy params) || negb (typeof_object params));
    [reflexivity|].
  destruct H as [H|H]; rewrite H; simpl;
    rewrite ?andb_false_r; reflexivity.
Qed.

End Reach.

(** ** Validation errors *)

(** C7, counterexample.  A remote caller without a bearer token posts an
    approve whose [code] is the number 7: the input fails the validation of
    its parameters, yet the answer is 401, not an invalid-request error,
    since the body is validated after the authorization block. *)
Lemma unauthorized_missing_code_gets_401 :
  request_rejected Sample.env_remote (Sample.approve_request (VNum 7) VUndefined) /\
  handlePairingHttpRequest Sample.env_remote
    (Sample.approve_request (VNum 7) VUndefined) =
    ([SendJson 401 (VObj [("ok", VBool false); ("error", VStr "Unauthorized")])],
     Ok true).
Proof.
  split; [|reflexivity].
  exists "sms", "approve". split.
  - exists "/api/pairing/sms/approve". repeat split.
  - right. repeat split.
Qed.

(** C7, as amended.  Input that fails parameter validation or channel
    resolution reaches neither the pairing store nor the notifier, on
    either adapter and whoever the caller is.  The gateway answers it with an
    invalid-request error, its single event.  The HTTP adapter answers an
    unresolvable channel with 400 at once, and an approve without a usable
    [code] with 400 "code is required" when the caller is authorized, after
    the body is read. *)
Theorem validation_errors_reach_no_store (env : Env) :
  (forall params,
      list_params_rejected env params ->
      exists msg,
        channel_pair_list env params =
          ([Respond false None (Some (errorShape INVALID_REQUEST msg))], Ok tt)) /\
  (forall params,
      approve_params_rejected env params ->
      exists msg,
        channel_pair_approve env params =
          ([Respond false None (Some (errorShape INVALID_REQUEST msg))], Ok tt)) /\
  (forall req channelRaw action,
      routed req channelRaw action ->
      truthy_string (resolveChannel env channelRaw) = None ->
      handlePairingHttpRequest env req =
        ([SendJson 400
            (VObj [("ok", VBool false);
                   ("error", VStr ("Invalid channel: " ++ channelRaw))])],
         Ok true)) /\
  (forall req channelRaw channel,
      routed req channelRaw "approve" ->
      method req = "POST" ->
      truthy_string (resolveChannel env channelRaw) = Some channel ->
      authorized env ->
      (json_body req = None \/
       exists body,
         json_body req = Some body /\
         (typeof_string (prop body "code") = false \/
          trim (as_string (prop body "code")) = "")) ->
      handlePairingHttpRequest env req =
        after (auth_calls env)
          ([ReadBody;
            SendJson 400
              (VObj [("ok", VBool false); ("error", VStr "code is required")])],
           Ok true)) /\
  (forall req,
      request_rejected env req ->
      never is_store_or_notifier_call (trace (handlePairingHttpRequest env req))).
Proof.
  split; [|split; [|split; [|split]]].
  - intros params. apply channel_pair_list_rejects.
  - intros params. apply channel_pair_approve_rejects.
  - intros req channelRaw action. apply routed_invalid_channel.
  - intros req channelRaw channel Hroute Hm Hch Hauth Hbody.
    pose proof (code_of_unusable_body req Hbody) as Hcode.
    rewrite (routed_authorized env req channelRaw "approve" channel Hroute Hch Hauth).
    rewrite (dispatch_approve env req channel Hm).
    now rewrite (handle_approve_without_code env req channel Hcode).
  - intros req (channelRaw & action & Hroute & Hwhy).
    destruct (handle_cases env req)
      as [Hgate | (raw' & action' & channel & Hroute' & Hch & Hauth & Hrun)].
    + eapply never_of_gate; [|exact Hgate]. exact gate_is_no_store_or_notifier.
    + destruct (routed_functional req _ _ _ _ Hroute Hroute') as [<- <-].
      destruct Hwhy as [Hnone | (-> & Hm & Hcode)]; [congruence|].
      rewrite Hrun, (dispatch_approve env req channel Hm).
      rewrite (handle_approve_without_code env req channel Hcode).
      apply never_after.
      * apply never_auth_calls. exact gate_is_no_store_or_notifier.
      * repeat constructor.
Qed.

Lemma validation_errors_reach_no_store_witness :
  (exists msg,
      channel_pair_list Sample.env (VObj [("channel", VStr "xyz!")]) =
        ([Respond false None (Some (errorShape INVALID_REQUEST msg))], Ok tt)) /\
  (exists msg,
      channel_pair_approve Sample.env (Sample.approve_params (VStr "  ") VUndefined) =
        ([Respond false None (Some (errorShape INVALID_REQUEST msg))], Ok tt)) /\
  handlePairingHttpRequest Sample.env
    (Sample.request "/api/pairing/xyz!/approve" "POST") =
    ([SendJson 400
        (VObj [("ok", VBool false); ("error", VStr "Invalid channel: xyz!")])],
     Ok true) /\
  handlePairingHttpRequest Sample.env
    (Sample.approve_request (VNum 7) VUndefined) =
    ([ReadBody;
      SendJson 400 (VObj [("ok", VBool false); ("error", VStr "code is required")])],
     Ok true) /\
  never is_store_or_notifier_call
    (trace (handlePairingHttpRequest Sample.env_remote
              (Sample.approve_request (VNum 7) VUndefined))).
Proof.
  destruct (validation_errors_reach_no_store Sample.env)
    as (Hlist & Happrove & Hchannel & Hcode & _).
  destruct (validation_errors_reach_no_store Sample.env_remote)
    as (_ & _ & _ & _ & Hnever).
  split; [|split; [|split; [|split]]].
  - apply Hlist. right. reflexivity.
  - apply Happrove. left. reflexivity.
  - apply (Hchannel _ "xyz!" "approve"); [|reflexivity].
    exists "/api/pairing/xyz!/approve". repeat split.
  - apply (Hcode _ "sms" "sms").
    + exists "/api/pairing/sms/approve". repeat split.
    + reflexivity.
    + reflexivity.
    + left. reflexivity.
    + right. exists (VObj [("code", VNum 7); ("notify", VUndefined)]).
      split; [reflexivity | left; reflexivity].
  - apply Hnever. exists "sms", "approve". split.
    + exists "/api/pairing/sms/approve". repeat split.
    + right. repeat split.
Defined.

(** ** The broadcast *)

Section Broadcast.

Variable env : Env.

Lemma approve_broadcasts params raw code channel :
  prop params "channel" = VStr raw ->
  prop params "code" = VStr code ->
  trim code <> "" ->
  truthy_string (resolveChannel env raw) = Some channel ->
  broadcasts (trace (channel_pair_approve env params)) =
    match approveChannelPairingCode env channel code with
    | Ok (Some id) =>
        [Broadcast "channel.pair.resolved" (resolved_event env channel id) true]
    | _ => []
    end.
Proof.
  intros Hp Hc Hcode Hch.
  rewrite (channel_pair_approve_runs env params raw code channel Hp Hc Hcode Hch).
  destruct (approveChannelPairingCode env channel code) as [[id|]|err];
    try reflexivity.
  destruct (truthy (prop params "notify")); try reflexivity.
  destruct (loadConfig env) as [cfg|err]; try reflexivity.
  destruct (notifyPairingApproved env channel id cfg) as [[?|?]|?]; reflexivity.
Qed.

Lemma rejected_approve_broadcasts params :
  approve_params_rejected env params ->
  broadcasts (trace (channel_pair_approve env params)) = [].
Proof.
  intros H. destruct (channel_pair_approve_rejects env params H) as [msg ->].
  reflexivity.
Qed.

Lemma list_broadcasts params :
  broadcasts (trace (channel_pair_list env params)) = [].
Proof.
  destruct (validateChannelPairListParams params) eqn:Hv.
  - destruct (validate_list_true params Hv) as (raw & Hp & Hraw).
    destruct (truthy_string (resolveChannel env raw)) as [channel|] eqn:Hch.
    + rewrite (channel_pair_list_runs env params raw channel Hp Hch).
      destruct (listChannelPairingRequests env channel); reflexivity.
    + destruct (channel_pair_list_rejects env params) as [msg ->];
        [right; now rewrite Hraw | reflexivity].
  - destruct (channel_pair_list_rejects env params) as [msg ->];
      [now left | reflexivity].
Qed.

Lemma http_broadcasts req :
  broadcasts (trace (handlePairingHttpRequest env req)) = [].
Proof.
  apply never_filter_nil.
  destruct (handle_cases env req)
    as [Hgate | (raw & action & channel & _ & _ & _ & Hrun)].
  - eapply never_of_gate; [|exact Hgate]. exact gate_is_no_broadcast.
  - rewrite Hrun. apply never_after.
    + apply never_auth_calls. exact gate_is_no_broadcast.
    + apply dispatch_never_broadcasts.
Qed.

End Broadcast.

(** C6.  The gateway's approve emits the broadcast [channel.pair.resolved]
    exactly when the store's approve operation returns a match: then it
    emits it once, with [channel] the resolved channel, [id] the id returned
    by the store, [decision] "approved", [ts] the current time and the option
    [dropIfSlow]; every broadcast of a trace arises this way.  The gateway's
    list and the HTTP adapter emit no broadcast on any input. *)
Theorem broadcast_exactly_on_match (env : Env) :
  (forall params raw code channel id,
      prop params "channel" = VStr raw ->
      prop params "code" = VStr code ->
      trim code <> "" ->
      truthy_string (resolveChannel env raw) = Some channel ->
      approveChannelPairingCode env channel code = Ok (Some id) ->
      broadcasts (trace (channel_pair_approve env params)) =
        [Broadcast "channel.pair.resolved"
           (VObj [("channel", VStr channel); ("id", VStr id);
                  ("decision", VStr "approved"); ("ts", VNum (Date_now env))])
           true]) /\
  (forall params e,
      In e (broadcasts (trace (channel_pair_approve env params))) ->
      exists raw code channel id,
        prop params "channel" = VStr raw /\
        prop params "code" = VStr code /\
        truthy_string (resolveChannel env raw) = Some channel /\
        approveChannelPairingCode env channel code = Ok (Some id) /\
        e = Broadcast "channel.pair.resolved" (resolved_event env channel id) true) /\
  (forall params, broadcasts (trace (channel_pair_list env params)) = []) /\
  (forall req, broadcasts (trace (handlePairingHttpRequest env req)) = []).
Proof.
  split; [|split; [|split]].
  - intros params raw code channel id Hp Hc Hcode Hch Hstore.
    rewrite (approve_broadcasts env params raw code channel Hp Hc Hcode Hch).
    now rewrite Hstore.
  - intros params e Hin.
    destruct (validateChannelPairApproveParams params) eqn:Hv.
    2:{ rewrite rejected_approve_broadcasts in Hin; [destruct Hin | now left]. }
    destruct (validate_approve_true params Hv)
      as (raw & code & Hp & Hc & Hcode & Hraw & _).
    destruct (truthy_string (resolveChannel env raw)) as [channel|] eqn:Hch.
    2:{ rewrite rejected_approve_broadcasts in Hin; [destruct Hin|].
        right. now rewrite Hraw. }
    rewrite (approve_broadcasts env params raw code channel Hp Hc Hcode Hch) in Hin.
    destruct (approveChannelPairingCode env channel code) as [[id|]|err] eqn:Hstore;
      simpl in Hin; [|contradiction|contradiction].
    destruct Hin as [<- | Hnil]; [|contradiction].
    exists raw, code, channel, id. repeat split; auto.
  - apply list_broadcasts.
  - apply http_broadcasts.
Qed.

Lemma broadcast_exactly_on_match_witness :
  broadcasts (trace (channel_pair_approve Sample.env
                       (Sample.approve_params (VStr "123456") VUndefined))) =
    [Broadcast "channel.pair.resolved"
       (VObj [("channel", VStr "sms"); ("id", VStr "req_1");
              ("decision", VStr "approved"); ("ts", VNum 1700000000000)])
       true].
Proof.
  destruct (broadcast_exactly_on_match Sample.env) as (Hmatch & _).
  apply (Hmatch _ "sms" "123456" "sms" "req_1"); try reflexivity.
  discriminate.
Defined.

(** ** The notifier *)

Section Notifier.

Variable env : Env.

Lemma gateway_without_notify params :
  truthy (prop params "notify") = false ->
  never is_notifier_call (trace (channel_pair_approve env params)).
Proof.
  intros Hn.
  destruct (validateChannelPairApproveParams params) eqn:Hv.
  2:{ destruct (channel_pair_approve_rejects env params) as [msg ->];
        [now left | repeat constructor]. }
  destruct (validate_approve_true params Hv)
    as (raw & code & Hp & Hc & Hcode & Hraw & _).
  destruct (truthy_string (resolveChannel env raw)) as [channel|] eqn:Hch.
  2:{ destruct (channel_pair_approve_rejects env params) as [msg ->];
        [right; now rewrite Hraw | repeat constructor]. }
  rewrite (channel_pair_approve_runs env params raw code channel Hp Hc Hcode Hch).
  rewrite Hn.
  destruct (approveChannelPairingCode env channel code) as [[id|]|err];
    repeat constructor.
Qed.

Lemma http_without_notify req :
  notify_of (body_value req) = false ->
  never is_notifier_call (trace (handlePairingHttpRequest env req)).
Proof.
  intros Hn.
  destruct (handle_cases env req)
    as [Hgate | (raw & action & channel & _ & _ & _ & Hrun)].
  - eapply never_of_gate; [|exact Hgate]. exact gate_is_no_notifier.
  - rewrite Hrun. apply never_after.
    + apply never_auth_calls. exact gate_is_no_notifier.
    + now apply dispatch_without_notify.
Qed.

End Notifier.

(** C5, the failing input.  [.catch] is attached to the promise that
    [notifyPairingApproved] returns, inside the outer [try]: a notifier that
    throws before it returns a promise lands in the outer [catch].  With
    [notify] set to [true] and the store having approved request [req_1],
    the gateway then answers [UNAVAILABLE] (after the broadcast) and the HTTP
    adapter 500: the failure of the notifier is reported as a failure of the
    approval. *)
Theorem notifier_throw_fails_the_approval :
  channel_pair_approve Faulty.env_notifier_throws
    (Sample.approve_params (VStr "123456") (VBool true)) =
    ([ApproveCode "sms" "123456";
      LogInfo "channel pairing approved channel=sms id=req_1";
      Broadcast "channel.pair.resolved"
        (VObj [("channel", VStr "sms"); ("id", VStr "req_1");
               ("decision", VStr "approved"); ("ts", VNum 1700000000000)])
        true;
      LoadConfig;
      Notify "sms" "req_1" (VObj []);
      Respond false None
        (Some (errorShape UNAVAILABLE "TypeError: no pairing adapter"))], Ok tt) /\
  handlePairingHttpRequest Faulty.env_notifier_throws
    (Sample.approve_request (VStr "123456") (VBool true)) =
    ([ReadBody; ApproveCode "sms" "123456"; LoadConfig;
      Notify "sms" "req_1" (VObj []);
      SendJson 500
        (VObj [("ok", VBool false);
               ("error", VStr "TypeError: no pairing adapter")])], Ok true).
Proof. split; reflexivity. Qed.

(** X15.  On both adapters an approve whose [notify] is [false] or absent
    never calls the notifier.  With [notify] set to [true], when the store
    approves and the promise returned by the notifier rejects, the gateway
    still responds [(true, {channel, id, approved: true})] and the HTTP
    adapter still answers 200 with [{ok: true, channel, id, approved:
    true}]. *)
Theorem notifier_is_optional_and_never_fatal (env : Env) :
  (forall params,
      prop params "notify" = VBool false \/ prop params "notify" = VUndefined ->
      never is_notifier_call (trace (channel_pair_approve env params))) /\
  (forall req,
      prop (body_value req) "notify" = VBool false \/
      prop (body_value req) "notify" = VUndefined ->
      never is_notifier_call (trace (handlePairingHttpRequest env req))) /\
  (forall params raw code channel id cfg err,
      prop params "channel" = VStr raw ->
      prop params "code" = VStr code ->
      trim code <> "" ->
      prop params "notify" = VBool true ->
      truthy_string (resolveChannel env raw) = Some channel ->
      approveChannelPairingCode env channel code = Ok (Some id) ->
      loadConfig env = Ok cfg ->
      notifyPairingApproved env channel id cfg = Ok (Throw err) ->
      result (channel_pair_approve env params) = Ok tt /\
      In (Notify channel id cfg) (trace (channel_pair_approve env params)) /\
      responses (trace (channel_pair_approve env params)) =
        [Respond true
           (Some (VObj [("channel", VStr channel); ("id", VStr id);
                        ("approved", VBool true)]))
           None]) /\
  (forall req raw code channel id cfg err,
      routed req raw "approve" ->
      method req = "POST" ->
      authorized env ->
      prop (body_value req) "code" = VStr code ->
      trim code <> "" ->
      prop (body_value req) "notify" = VBool true ->
      truthy_string (resolveChannel env raw) = Some channel ->
      approveChannelPairingCode env channel (trim code) = Ok (Some id) ->
      loadConfig env = Ok cfg ->
      notifyPairingApproved env channel id cfg = Ok (Throw err) ->
      result (handlePairingHttpRequest env req) = Ok true /\
      In (Notify channel id cfg) (trace (handlePairingHttpRequest env req)) /\
      responses (trace (handlePairingHttpRequest env req)) =
        [SendJson 200
           (VObj [("ok", VBool true); ("channel", VStr channel); ("id", VStr id);
                  ("approved", VBool true)])]).
Proof.
  split; [|split; [|split]].
  - intros params Hn. apply gateway_without_notify.
    destruct Hn as [-> | ->]; reflexivity.
  - intros req Hn. apply http_without_notify. unfold notify_of.
    destruct Hn as [-> | ->]; reflexivity.
  - intros params raw code channel id cfg err Hp Hc Hcode Hn Hch Hstore Hcfg Hfail.
    rewrite (channel_pair_approve_runs env params raw code channel Hp Hc Hcode Hch).
    rewrite Hstore, Hn, Hcfg, Hfail. simpl.
    split; [reflexivity | split; [|reflexivity]].
    unfold trace, after. simpl. auto 10.
  - intros req raw code channel id cfg err
           Hroute Hm Hauth Hc Hcode Hn Hch Hstore Hcfg Hfail.
    rewrite (routed_authorized env req raw "approve" channel Hroute Hch Hauth).
    rewrite (dispatch_approve env req channel Hm).
    assert (Ecode : code_of (body_value req) = trim code)
      by (unfold code_of; now rewrite Hc).
    pose proof (handle_approve_runs env req channel) as Hrun.
    simpl in Hrun. rewrite Ecode in Hrun. rewrite (Hrun Hcode).
    unfold notify_of. rewrite Hstore, Hn, Hcfg, Hfail.
    split; [reflexivity | split].
    + unfold trace, after. simpl. apply in_or_app. right. simpl. auto 10.
    + unfold responses. rewrite filter_after.
      rewrite (never_filter_nil is_response (auth_calls env)
                 (auth_calls_no_response env)).
      reflexivity.
Qed.

Lemma notifier_is_optional_and_never_fatal_witness :
  never is_notifier_call
    (trace (channel_pair_approve Sample.env
              (Sample.approve_params (VStr "123456") (VBool false)))) /\
  never is_notifier_call
    (trace (handlePairingHttpRequest Sample.env
              (Sample.approve_request (VStr "123456") VUndefined))) /\
  responses (trace (channel_pair_approve Sample.env
                      (Sample.approve_params (VStr "123456") (VBool true)))) =
    [Respond true
       (Some (VObj [("channel", VStr "sms"); ("id", VStr "req_1");
                    ("approved", VBool true)]))
       None] /\
  responses (trace (handlePairingHttpRequest Sample.env
                      (Sample.approve_request (VStr "123456") (VBool true)))) =
    [SendJson 200
       (VObj [("ok", VBool true); ("channel", VStr "sms"); ("id", VStr "req_1");
              ("approved", VBool true)])].
Proof.
  destruct (notifier_is_optional_and_never_fatal Sample.env)
    as (Hgateway_off & Hhttp_off & Hgateway_on & Hhttp_on).
  split; [|split; [|split]].
  - apply Hgateway_off. left. reflexivity.
  - apply Hhttp_off. right. reflexivity.
  - apply (Hgateway_on _ "sms" "123456" "sms" "req_1" (VObj [])
             "Error: delivery failed"); try reflexivity.
    discriminate.
  - apply (Hhttp_on _ "sms" "123456" "sms" "req_1" (VObj [])
             "Error: delivery failed"); try reflexivity.
    + exists "/api/pairing/sms/approve". repeat split.
    + left. reflexivity.
    + discriminate.
Defined.

(** ** The two adapters side by side *)

(** C2, the failing input.  With the same channel [sms], the same code
    string [" 123456 "] and the same notify value, the two adapters do not
    call the store with the same arguments: the gateway, which validated
    [code.trim()], passes the code as supplied, while the HTTP adapter passes
    it trimmed. *)
Theorem padded_code_reaches_the_store_untrimmed :
  store_and_notifier_calls
    (trace (channel_pair_approve Sample.env
              (VObj [("channel", VStr "sms"); ("code", VStr " 123456 ");
                     ("notify", VBool false)]))) =
    [ApproveCode "sms" " 123456 "] /\
  store_and_notifier_calls
    (trace (handlePairingHttpRequest Sample.env
              {| url_pathname := Some "/api/pairing/sms/approve";
                 method := "POST";
                 json_body := Some (VObj [("code", VStr " 123456 ");
                                          ("notify", VBool false)]) |})) =
    [ApproveCode "sms" "123456"].
Proof. split; reflexivity. Qed.

(** A [notify] that is truthy without being [true], which the declared
    type [notify?: boolean] of the parameters excludes, reaches the notifier
    on the gateway only. *)
Lemma truthy_notify_reaches_the_notifier_on_the_gateway_only :
  store_and_notifier_calls
    (trace (channel_pair_approve Sample.env
              (Sample.approve_params (VStr "123456") (VNum 1)))) =
    [ApproveCode "sms" "123456"; Notify "sms" "req_1" (VObj [])] /\
  store_and_notifier_calls
    (trace (handlePairingHttpRequest Sample.env
              (Sample.approve_request (VStr "123456") (VNum 1)))) =
    [ApproveCode "sms" "123456"].
Proof. split; reflexivity. Qed.

(** X16.  Where the two adapters do agree.  For every input where the
    channel resolves, with the same resolved channel, the same code and the
    same notify value on both sides, a code that is blank or has no
    surrounding white space, and a notify value that is [true] or falsy, the
    gateway adapter and the (authorized) HTTP adapter make the same calls to
    the store and to the notifier, in the same order and with the same
    arguments. *)
Theorem approve_calls_agree
    (env : Env) (params : value) (req : Request) (raw raw' channel : string) :
  prop params "channel" = VStr raw ->
  routed req raw' "approve" ->
  method req = "POST" ->
  authorized env ->
  truthy_string (resolveChannel env raw) = Some channel ->
  truthy_string (resolveChannel env raw') = Some channel ->
  same_code_and_notify params req ->
  (forall code, prop params "code" = VStr code ->
                trim code = code \/ trim code = "") ->
  truthy (prop params "notify") = is_true (prop params "notify") ->
  store_and_notifier_calls (trace (channel_pair_approve env params)) =
  store_and_notifier_calls (trace (handlePairingHttpRequest env req)).
Proof.
  intros Hp Hroute Hm Hauth Hch Hch' [Hcode Hnotify] Hclean Hbool.
  rewrite (routed_authorized env req raw' "approve" channel Hroute Hch' Hauth).
  rewrite (dispatch_approve env req channel Hm).
  unfold store_and_notifier_calls. rewrite filter_after.
  rewrite (never_filter_nil is_store_or_notifier_call (auth_calls env)
             (never_auth_calls env _ gate_is_no_store_or_notifier)).
  simpl.
  assert (Hflag : truthy (prop params "notify") = notify_of (body_value req)).
  { unfold notify_of. now rewrite <- Hnotify. }
  destruct (prop params "code") as [| | | |code| |] eqn:Hc;
    try (rewrite (handle_approve_without_code env req channel)
           by (unfold code_of; now rewrite <- Hcode);
         destruct (channel_pair_approve_rejects env params) as [msg ->];
           [left; apply validate_approve_needs_code; left; now rewrite Hc
           | reflexivity]).
  assert (Ecode : code_of (body_value req) = trim code).
  { unfold code_of. now rewrite <- Hcode. }
  destruct (string_dec (trim code) "") as [Hblank | Hne].
  - rewrite (handle_approve_without_code env req channel)
      by (now rewrite Ecode).
    destruct (channel_pair_approve_rejects env params) as [msg ->];
      [|reflexivity].
    left. apply validate_approve_needs_code. right. now rewrite Hc.
  - assert (Htrim : trim code = code)
      by (destruct (Hclean code eq_refl) as [E | E]; [exact E | contradiction]).
    rewrite (channel_pair_approve_runs env params raw code channel
               Hp Hc Hne Hch).
    pose proof (handle_approve_runs env req channel) as Hrun.
    simpl in Hrun. rewrite Ecode, Htrim in Hrun.
    assert (Hne' : code <> "") by (now rewrite <- Htrim).
    rewrite (Hrun Hne'), Hflag.
    destruct (approveChannelPairingCode env channel code) as [[id|]|err];
      try reflexivity.
    destruct (notify_of (body_value req)); try reflexivity.
    destruct (loadConfig env) as [cfg|err]; try reflexivity.
    destruct (notifyPairingApproved env channel id cfg) as [[?|?]|?]; reflexivity.
Qed.

Lemma approve_calls_agree_witness :
  store_and_notifier_calls
    (trace (channel_pair_approve Sample.env
              (VObj [("channel", VStr " SMS "); ("code", VStr "123456");
                     ("notify", VBool true)]))) =
  store_and_notifier_calls
    (trace (handlePairingHttpRequest Sample.env
              (Sample.approve_request (VStr "123456") (VBool true)))).
Proof.
  apply (approve_calls_agree Sample.env _ _ " SMS " "sms" "sms").
  - reflexivity.
  - exists "/api/pairing/sms/approve". repeat split.
  - reflexivity.
  - left. reflexivity.
  - reflexivity.
  - reflexivity.
  - split; reflexivity.
  - intros code Hcode. inversion Hcode. left. reflexivity.
  - reflexivity.
Defined.

(** ** Resolved channels are already normalized *)

Section Normalized.

Lemma trimEnd_idempotent (s : string) : trimEnd (trimEnd s) = trimEnd s.
Proof.
  induction s as [|c r IH]; simpl; [reflexivity|].
  destruct (is_space c && is_empty (trimEnd r)) eqn:E; simpl; [reflexivity|].
  now rewrite IH, E.
Qed.

Lemma trimStart_head (s : string) :
  match trimStart s with
  | EmptyString => True
  | String c _ => is_space c = false
  end.
Proof.
  induction s as [|c r IH]; simpl; [exact I|].
  destruct (is_space c) eqn:E; [exact IH | exact E].
Qed.

Lemma trimStart_trimEnd_fixed (t : string) :
  match t with EmptyString => True | String c _ => is_space c = false end ->
  trimStart (trimEnd t) = trimEnd t.
Proof.
  destruct t as [|c r]; simpl; [reflexivity|].
  intros Hc. rewrite Hc. simpl. now rewrite Hc.
Qed.

Lemma trim_idempotent (s : string) : trim (trim s) = trim s.
Proof.
  unfold trim.
  rewrite (trimStart_trimEnd_fixed (trimStart s) (trimStart_head s)).
  apply trimEnd_idempotent.
Qed.



End Normalized.



(** ** The validators of the gateway *)

(** X2.  [validateChannelPairListParams] accepts exactly the objects whose
    [channel] is a string that is not blank, and
    [validateChannelPairApproveParams] exactly those whose [channel] and
    [code] both are; [null], arrays, primitives, missing or non-string
    fields and white-space-only strings are refused, and whatever passes as
    approve parameters passes as list parameters. *)
Theorem validators_accept_nonblank_strings (params : value) :
  (validateChannelPairListParams params = true <->
   exists fields raw,
     params = VObj fields /\ lookup "channel" fields = VStr raw /\ trim raw <> "") /\
  (validateChannelPairApproveParams params = true <->
   exists fields raw code,
     params = VObj fields /\ lookup "channel" fields = VStr raw /\ trim raw <> "" /\
     lookup "code" fields = VStr code /\ trim code <> "") /\
  (validateChannelPairApproveParams params = true ->
   validateChannelPairListParams params = true).
Proof.
  assert (Hlen : forall s, (0 <? JsString.length s)%nat = true <-> s <> "").
  { intros [|c r]; simpl; split; intros H; try reflexivity;
      try discriminate; now elim H. }
  unfold validateChannelPairListParams, validateChannelPairApproveParams.
  destruct params as [| |b|n|s|items|fields]; simpl; rewrite ?orb_true_r;
    try (split;
         [split; [discriminate | intros (f & r & H & _); discriminate H]
         |split;
          [split; [discriminate | intros (f & r & c & H & _); discriminate H]
          |discriminate]]).
  - split; [|split].
    + split.
      * intros H. apply andb_true_iff in H as [Hs Hl].
        destruct (lookup "channel" fields) as [| | | |raw| |] eqn:E;
          try discriminate Hs.
        exists fields, raw. simpl in Hl. apply Hlen in Hl. auto.
      * intros (f & raw & Hf & Hc & Hne). inversion Hf; subst f.
        rewrite Hc. simpl. now apply Hlen.
    + split.
      * intros H. rewrite !andb_true_iff in H. destruct H as [[[Hs Hl] Hk] Hkl].
        destruct (lookup "channel" fields) as [| | | |raw| |] eqn:E;
          try discriminate Hs.
        destruct (lookup "code" fields) as [| | | |code| |] eqn:E';
          try discriminate Hk.
        exists fields, raw, code. simpl in Hl, Hkl.
        apply Hlen in Hl. apply Hlen in Hkl. auto 10.
      * intros (f & raw & code & Hf & Hc & Hne & Hk & Hkne).
        inversion Hf; subst f. rewrite Hc, Hk. simpl.
        rewrite !andb_true_iff. repeat split; now apply Hlen.
    + intros H. rewrite !andb_true_iff in H. destruct H as [[[Hs Hl] _] _].
      now rewrite Hs, Hl.
Qed.

Lemma validators_accept_nonblank_strings_witness :
  validateChannelPairListParams (Sample.approve_params (VStr "123456") VUndefined)
  = true.
Proof.
  destruct (validators_accept_nonblank_strings
              (Sample.approve_params (VStr "123456") VUndefined))
    as (_ & _ & Himp).
  apply Himp. reflexivity.
Defined.

(** ** Path segments *)

Section Segments.

Lemma split_slash_free (s : string) :
  slash_free s -> split (unit_of "/") s = [s].
Proof.
  unfold slash_free. induction s as [|c r IH]; simpl; [reflexivity|].
  intros H. apply andb_true_iff in H as [Hc Hr].
  apply negb_true_iff in Hc. rewrite Hc, (IH Hr). reflexivity.
Qed.

Lemma split_segment_then_slash (s rest : string) :
  slash_free s ->
  split (unit_of "/") (s ++ String (unit_of "/") rest) =
    s :: split (unit_of "/") rest.
Proof.
  unfold slash_free. induction s as [|c r IH]; simpl; [reflexivity|].
  intros H. apply andb_true_iff in H as [Hc Hr].
  apply negb_true_iff in Hc. rewrite Hc, (IH Hr). reflexivity.
Qed.

Lemma segments_after_first (s : string) (segments : list string) :
  slash_free s -> s <> "" ->
  Forall (fun x => slash_free x /\ x <> "") segments ->
  filter (fun x => negb (is_empty x)) (split (unit_of "/") (s ++ join_segments segments)) =
    s :: segments.
Proof.
  intros Hs Hne Hall. revert s Hs Hne.
  induction Hall as [|x rest [Hx Hxne] _ IH]; intros s Hs Hne; simpl.
  - assert (E : s ++ "" = s) by (clear; induction s; simpl; congruence).
    rewrite E, (split_slash_free s Hs). simpl.
    destruct s; [congruence | reflexivity].
  - rewrite (split_segment_then_slash s _ Hs). simpl.
    rewrite (IH x Hx Hxne). destruct s; [congruence | reflexivity].
Qed.

Lemma split_parts_slash_free (s : string) :
  Forall slash_free (split (unit_of "/") s).
Proof.
  induction s as [|c r IH]; simpl.
  - repeat constructor.
  - destruct (N.eqb c (unit_of "/")) eqn:E.
    + constructor; [reflexivity | exact IH].
    + destruct (split (unit_of "/") r) as [|h t].
      * repeat constructor. unfold slash_free. simpl. now rewrite E.
      * inversion IH; subst. constructor; [|assumption].
        unfold slash_free in *. simpl. now rewrite E.
Qed.

End Segments.

(** X3.  [pathParts] inverts the writing of a path: for segments that are
    non-empty and hold no [/], the path made of the prefix and the segments,
    each behind a [/], is parsed back into exactly these segments; and
    whatever the pathname, the segments returned are non-empty and hold no
    [/]. *)
Theorem pathParts_round_trip :
  (forall segments,
      Forall (fun s => slash_free s /\ s <> "") segments ->
      pathParts (PAIRING_BASE_PATH ++ join_segments segments) = segments) /\
  (forall pathname,
      Forall (fun s => slash_free s /\ s <> "") (pathParts pathname)).
Proof.
  split.
  - intros segments Hall. unfold pathParts. simpl.
    destruct Hall as [|s rest [Hs Hne] Hrest]; [reflexivity|].
    simpl. now apply segments_after_first.
  - intros pathname. unfold pathParts.
    apply Forall_forall. intros s Hin. apply filter_In in Hin as [Hin Hne].
    split.
    + pose proof (split_parts_slash_free
                    (slice (JsString.length PAIRING_BASE_PATH) pathname)) as Hall.
      rewrite Forall_forall in Hall. now apply Hall.
    + intros ->. discriminate Hne.
Qed.

Lemma pathParts_round_trip_witness :
  pathParts (PAIRING_BASE_PATH ++ join_segments ["Sms"; "approve"]) =
    ["Sms"; "approve"].
Proof.
  destruct pathParts_round_trip as [Hback _].
  apply Hback. repeat constructor; discriminate.
Defined.

(** ** Case analyses shared by the properties below *)

Ltac dispatch_cases env req channel action :=
  unfold dispatch;
  destruct (JsString.eqb action "list" && JsString.eqb (method req) "GET") eqn:?;
  [ rewrite handle_list_runs;
    destruct (listChannelPairingRequests env channel) eqn:?
  | destruct (JsString.eqb action "approve" && JsString.eqb (method req) "POST") eqn:?;
    [ destruct (string_dec (code_of (body_value req)) "") as [?Hcode | ?Hcode];
      [ rewrite (handle_approve_without_code env req channel) by assumption
      | rewrite (handle_approve_runs env req channel) by assumption;
        destruct (approveChannelPairingCode env channel (code_of (body_value req)))
          as [[?id|]|?err] eqn:?;
        [ destruct (notify_of (body_value req)) eqn:?;
          [ destruct (loadConfig env) as [?cfg|?err] eqn:?;
            [ match goal with
              | |- context [notifyPairingApproved env channel ?i ?c] =>
                  destruct (notifyPairingApproved env channel i c)
                    as [?|?] eqn:?
              end
            | ]
          | ]
        | | ] ]
    | ] ].

Section Outcomes.

Variable env : Env.

Lemma auth_trichotomy :
  authorized env \/ unauthorized env \/ auth_engine_rejects env.
Proof.
  unfold authorized, unauthorized, auth_engine_rejects.
  destruct (isLocalDirectRequest env); [left; now left|].
  destruct (truthy_string (getBearerToken env)) as [token|] eqn:Htok.
  - destruct (authorizeGatewayConnect env token token) as [[|]|err] eqn:Hok.
    + left. right. now exists token.
    + right. left. split; [reflexivity|]. right. now exists token.
    + right. right. split; [reflexivity|]. now exists token, err.
  - right. left. split; [reflexivity | now left].
Qed.

Lemma routed_auth_rejects req channelRaw action channel :
  routed req channelRaw action ->
  truthy_string (resolveChannel env channelRaw) = Some channel ->
  auth_engine_rejects env ->
  exists token err,
    truthy_string (getBearerToken env) = Some token /\
    authorizeGatewayConnect env token token = Throw err /\
    handlePairingHttpRequest env req = ([Authorize token token false], Throw err).
Proof.
  intros Hroute Hch (Hloc & token & err & Htok & Hthrow).
  exists token, err. repeat split; auto.
  now apply (routed_auth_throws env req channelRaw action channel token err).
Qed.

(** The ways through [handlePairingHttpRequest]. *)
Lemma handle_outcomes req :
  (url_pathname req = None /\
   handlePairingHttpRequest env req = ([], Throw "TypeError: Invalid URL")) \/
  (exists pathname,
      url_pathname req = Some pathname /\
      startsWith PAIRING_BASE_PATH pathname = false /\
      handlePairingHttpRequest env req = ([], Ok false)) \/
  (exists pathname,
      url_pathname req = Some pathname /\
      startsWith PAIRING_BASE_PATH pathname = true /\
      List.length (pathParts pathname) <> 2 /\
      handlePairingHttpRequest env req =
        ([SendJson 404 (error_body "Not Found")], Ok true)) \/
  (exists channelRaw action,
      routed req channelRaw action /\
      truthy_string (resolveChannel env channelRaw) = None /\
      handlePairingHttpRequest env req =
        ([SendJson 400 (error_body ("Invalid channel: " ++ channelRaw))], Ok true)) \/
  (exists channelRaw action channel,
      routed req channelRaw action /\
      truthy_string (resolveChannel env channelRaw) = Some channel /\
      ((unauthorized env /\
        handlePairingHttpRequest env req =
          ((auth_calls env ++ [SendJson 401 (error_body "Unauthorized")])%list,
           Ok true)) \/
       (auth_engine_rejects env /\
        exists token err,
          truthy_string (getBearerToken env) = Some token /\
          handlePairingHttpRequest env req =
            ([Authorize token token false], Throw err)) \/
       (authorized env /\
        handlePairingHttpRequest env req =
          after (auth_calls env) (dispatch env req channel action)))).
Proof.
  destruct (url_pathname req) as [pathname|] eqn:Hp.
  2:{ left. split; [reflexivity|].
      unfold handlePairingHttpRequest. now rewrite Hp. }
  right.
  destruct (startsWith PAIRING_BASE_PATH pathname) eqn:Hs.
  2:{ left. exists pathname. repeat split; auto.
      apply (not_under_prefix env req pathname Hp Hs). }
  right.
  destruct (Nat.eq_dec (List.length (pathParts pathname)) 2) as [E|N].
  2:{ left. exists pathname. repeat split; auto.
      apply (wrong_segment_count env req pathname Hp Hs N). }
  right.
  destruct (pathParts pathname) as [|raw [|action [|x l]]] eqn:Hparts;
    try discriminate E.
  assert (Hroute : routed req raw action) by (exists pathname; auto).
  destruct (truthy_string (resolveChannel env raw)) as [channel|] eqn:Hch.
  2:{ left. exists raw, action. repeat split; auto.
      apply (routed_invalid_channel env req raw action Hroute Hch). }
  right. exists raw, action, channel. split; [exact Hroute | split; [exact Hch|]].
  destruct auth_trichotomy as [Hyes | [Hno | Hrej]].
  - right. right. split; [exact Hyes|].
    apply (routed_authorized env req raw action channel Hroute Hch Hyes).
  - left. split; [exact Hno|].
    apply (routed_unauthorized env req raw action channel Hroute Hch Hno).
  - right. left. split; [exact Hrej|].
    destruct (routed_auth_rejects req raw action channel Hroute Hch Hrej)
      as (token & err & Htok & _ & Hrun).
    now exists token, err.
Qed.

Lemma in_auth_calls e :
  In e (auth_calls env) ->
  isLocalDirectRequest env = false /\
  exists token,
    truthy_string (getBearerToken env) = Some token /\
    e = Authorize token token false.
Proof.
  unfold auth_calls.
  destruct (isLocalDirectRequest env); [intros []|].
  destruct (truthy_string (getBearerToken env)) as [token|]; [|intros []].
  intros [<- | []]. split; [reflexivity|]. now exists token.
Qed.

Lemma channel_pair_approve_invalid params :
  validateChannelPairApproveParams params = false ->
  channel_pair_approve env params =
    ([Respond false None
        (Some (errorShape INVALID_REQUEST
                 "invalid channel.pair.approve params: channel (string) and code (string) required"))],
     Ok tt).
Proof. intros H. unfold channel_pair_approve. now rewrite H. Qed.

Lemma channel_pair_approve_unresolved params raw :
  validateChannelPairApproveParams params = true ->
  prop params "channel" = VStr raw ->
  truthy_string (resolveChannel env raw) = None ->
  channel_pair_approve env params =
    ([Respond false None (Some (errorShape INVALID_REQUEST ("invalid channel: " ++ raw)))],
     Ok tt).
Proof.
  intros Hv Hp Hch. unfold channel_pair_approve. rewrite Hv, Hp. simpl.
  now rewrite Hch.
Qed.

(** The ways through [channel.pair.approve] before the store is called. *)
Lemma channel_pair_approve_outcomes params :
  (exists msg,
      channel_pair_approve env params =
        ([Respond false None (Some (errorShape INVALID_REQUEST msg))], Ok tt)) \/
  (exists raw code channel,
      prop params "channel" = VStr raw /\
      prop params "code" = VStr code /\
      trim code <> "" /\
      truthy_string (resolveChannel env raw) = Some channel).
Proof.
  destruct (validateChannelPairApproveParams params) eqn:Hv.
  - destruct (validate_approve_true params Hv)
      as (raw & code & Hp & Hc & Hcode & _ & _).
    destruct (truthy_string (resolveChannel env raw)) as [channel|] eqn:Hch.
    + right. now exists raw, code, channel.
    + left. eexists. apply (channel_pair_approve_unresolved params raw Hv Hp Hch).
  - left. eexists. apply (channel_pair_approve_invalid params Hv).
Qed.

Lemma dispatch_same_request req req' channel action :
  method req = method req' ->
  json_body req = json_body req' ->
  dispatch env req channel action = dispatch env req' channel action.
Proof.
  intros Hm Hb.
  unfold dispatch, handle_approve, readJsonBody, body_value.
  now rewrite Hm, Hb.
Qed.


Lemma each_preceded_sound (p q : event -> bool) t :
  forall seen,
    each_preceded p q seen t = true ->
    forall pre e post,
      t = (pre ++ e :: post)%list -> q e = true ->
      seen = true \/ exists b, In b pre /\ p b = true.
Proof.
  induction t as [|x rest IH]; intros seen H pre e post Ht Hq.
  - destruct pre; discriminate Ht.
  - simpl in H. apply andb_true_iff in H as [Hx Hrest].
    destruct pre as [|y pre']; simpl in Ht; inversion Ht; subst.
    + rewrite Hq in Hx. now left.
    + destruct (IH _ Hrest pre' e post eq_refl Hq) as [Hseen | (b & Hb & Hp)].
      * apply orb_true_iff in Hseen as [Hs | Hy]; [now left|].
        right. exists y. split; [now left | exact Hy].
      * right. exists b. split; [now right | exact Hp].
Qed.

End Outcomes.

(** ** List on both adapters *)

(** X4.  For a channel that resolves, List on the gateway and on the
    (authorized) HTTP adapter makes the same single call to the store with
    the resolved channel and nothing else; both hand back the store's
    requests unchanged under that channel, and when the store throws the
    gateway answers [UNAVAILABLE] and the HTTP adapter 500, both with the text
    of the error. *)
Theorem list_adapters_agree
    (env : Env) (params : value) (req : Request) (raw raw' channel : string) :
  prop params "channel" = VStr raw ->
  truthy_string (resolveChannel env raw) = Some channel ->
  routed req raw' "list" ->
  method req = "GET" ->
  truthy_string (resolveChannel env raw') = Some channel ->
  authorized env ->
  match listChannelPairingRequests env channel with
  | Ok requests =>
      channel_pair_list env params =
        ([ListRequests channel;
          Respond true
            (Some (VObj [("channel", VStr channel); ("requests", VArr requests)]))
            None], Ok tt) /\
      handlePairingHttpRequest env req =
        after (auth_calls env)
          ([ListRequests channel;
            SendJson 200
              (VObj [("ok", VBool true); ("channel", VStr channel);
                     ("requests", VArr requests)])], Ok true)
  | Throw err =>
      channel_pair_list env params =
        ([ListRequests channel;
          Respond false None (Some (errorShape UNAVAILABLE err))], Ok tt) /\
      handlePairingHttpRequest env req =
        after (auth_calls env)
          ([ListRequests channel;
            SendJson 500 (VObj [("ok", VBool false); ("error", VStr err)])], Ok true)
  end.
Proof.
  intros Hp Hch Hroute Hm Hch' Hauth.
  rewrite (channel_pair_list_runs env params raw channel Hp Hch).
  rewrite (routed_authorized env req raw' "list" channel Hroute Hch' Hauth).
  rewrite (dispatch_list env req channel Hm), handle_list_runs.
  destruct (listChannelPairingRequests env channel); split; reflexivity.
Qed.

Lemma list_adapters_agree_witness :
  channel_pair_list Sample.env (VObj [("channel", VStr " SMS ")]) =
    ([ListRequests "sms";
      Respond true
        (Some (VObj [("channel", VStr "sms");
                     ("requests",
                      VArr [VObj [("id", VStr "req_1"); ("code", VStr "123456")]])]))
        None], Ok tt) /\
  handlePairingHttpRequest Sample.env (Sample.request "/api/pairing/Sms/list" "GET") =
    ([ListRequests "sms";
      SendJson 200
        (VObj [("ok", VBool true); ("channel", VStr "sms");
               ("requests",
                VArr [VObj [("id", VStr "req_1"); ("code", VStr "123456")]])])],
     Ok true).
Proof.
  apply (list_adapters_agree Sample.env (VObj [("channel", VStr " SMS ")])
           (Sample.request "/api/pairing/Sms/list" "GET") " SMS " "Sms" "sms").
  - reflexivity.
  - reflexivity.
  - exists "/api/pairing/Sms/list". repeat split.
  - reflexivity.
  - reflexivity.
  - left. reflexivity.
Defined.

(** ** Failures behind an approve *)

(** X5.  When the store's approve call throws, nothing else happens: the
    gateway answers [UNAVAILABLE] and the HTTP adapter 500, both with the text
    of the error, and there is no broadcast, no read of the configuration and
    no call of the notifier. *)
Theorem store_failure_is_unavailable
    (env : Env) (raw code channel err : string) :
  truthy_string (resolveChannel env raw) = Some channel ->
  trim code <> "" ->
  (forall params,
      prop params "channel" = VStr raw ->
      prop params "code" = VStr code ->
      approveChannelPairingCode env channel code = Throw err ->
      channel_pair_approve env params =
        ([ApproveCode channel code;
          Respond false None (Some (errorShape UNAVAILABLE err))], Ok tt)) /\
  (forall req,
      routed req raw "approve" ->
      method req = "POST" ->
      authorized env ->
      prop (body_value req) "code" = VStr code ->
      approveChannelPairingCode env channel (trim code) = Throw err ->
      handlePairingHttpRequest env req =
        after (auth_calls env)
          ([ReadBody; ApproveCode channel (trim code);
            SendJson 500 (VObj [("ok", VBool false); ("error", VStr err)])],
           Ok true)).
Proof.
  intros Hch Hcode. split.
  - intros params Hp Hc Hstore.
    rewrite (channel_pair_approve_runs env params raw code channel Hp Hc Hcode Hch).
    now rewrite Hstore.
  - intros req Hroute Hm Hauth Hbody Hstore.
    rewrite (routed_authorized env req raw "approve" channel Hroute Hch Hauth).
    rewrite (dispatch_approve env req channel Hm).
    assert (Hc : code_of (body_value req) = trim code)
      by (unfold code_of; now rewrite Hbody).
    pose proof (handle_approve_runs env req channel) as Hrun.
    simpl in Hrun. rewrite Hc in Hrun. rewrite (Hrun Hcode), Hstore.
    reflexivity.
Qed.

(** X6.  When [notify] is requested and the store has approved, a
    configuration loader that throws turns the answer into a failure although
    the approval is done: the gateway has already emitted the broadcast and
    then answers [UNAVAILABLE], the HTTP adapter answers 500; the notifier is
    not called. *)
Theorem config_failure_after_approval
    (env : Env) (raw code channel id err : string) :
  truthy_string (resolveChannel env raw) = Some channel ->
  trim code <> "" ->
  loadConfig env = Throw err ->
  (forall params,
      prop params "channel" = VStr raw ->
      prop params "code" = VStr code ->
      truthy (prop params "notify") = true ->
      approveChannelPairingCode env channel code = Ok (Some id) ->
      channel_pair_approve env params =
        ([ApproveCode channel code;
          LogInfo ("channel pairing approved channel=" ++ channel ++ " id=" ++ id);
          Broadcast "channel.pair.resolved" (resolved_event env channel id) true;
          LoadConfig;
          Respond false None (Some (errorShape UNAVAILABLE err))], Ok tt)) /\
  (forall req,
      routed req raw "approve" ->
      method req = "POST" ->
      authorized env ->
      prop (body_value req) "code" = VStr code ->
      prop (body_value req) "notify" = VBool true ->
      approveChannelPairingCode env channel (trim code) = Ok (Some id) ->
      handlePairingHttpRequest env req =
        after (auth_calls env)
          ([ReadBody; ApproveCode channel (trim code); LoadConfig;
            SendJson 500 (VObj [("ok", VBool false); ("error", VStr err)])],
           Ok true)).
Proof.
  intros Hch Hcode Hcfg. split.
  - intros params Hp Hc Hn Hstore.
    rewrite (channel_pair_approve_runs env params raw code channel Hp Hc Hcode Hch).
    now rewrite Hstore, Hn, Hcfg.
  - intros req Hroute Hm Hauth Hbody Hn Hstore.
    rewrite (routed_authorized env req raw "approve" channel Hroute Hch Hauth).
    rewrite (dispatch_approve env req channel Hm).
    assert (Hc : code_of (body_value req) = trim code)
      by (unfold code_of; now rewrite Hbody).
    pose proof (handle_approve_runs env req channel) as Hrun.
    simpl in Hrun. rewrite Hc in Hrun. rewrite (Hrun Hcode), Hstore.
    unfold notify_of. now rewrite Hn, Hcfg.
Qed.

Lemma store_failure_is_unavailable_witness :
  channel_pair_approve Faulty.env_store_down
    (Sample.approve_params (VStr "123456") (VBool true)) =
    ([ApproveCode "sms" "123456";
      Respond false None
        (Some (errorShape UNAVAILABLE "Error: store unavailable"))], Ok tt) /\
  handlePairingHttpRequest Faulty.env_store_down
    (Sample.approve_request (VStr " 123456 ") (VBool true)) =
    ([ReadBody; ApproveCode "sms" "123456";
      SendJson 500
        (VObj [("ok", VBool false); ("error", VStr "Error: store unavailable")])],
     Ok true).
Proof.
  split.
  - destruct (store_failure_is_unavailable Faulty.env_store_down
                "sms" "123456" "sms" "Error: store unavailable")
      as [Hgateway _]; [reflexivity | discriminate |].
    apply Hgateway; reflexivity.
  - destruct (store_failure_is_unavailable Faulty.env_store_down
                "sms" " 123456 " "sms" "Error: store unavailable")
      as [_ Hhttp]; [reflexivity | discriminate |].
    apply (Hhttp (Sample.approve_request (VStr " 123456 ") (VBool true)));
      try reflexivity.
    + exists "/api/pairing/sms/approve". repeat split.
    + left. reflexivity.
Defined.

Lemma config_failure_after_approval_witness :
  channel_pair_approve Faulty.env_config_down
    (Sample.approve_params (VStr "123456") (VBool true)) =
    ([ApproveCode "sms" "123456";
      LogInfo "channel pairing approved channel=sms id=req_1";
      Broadcast "channel.pair.resolved"
        (resolved_event Faulty.env_config_down "sms" "req_1") true;
      LoadConfig;
      Respond false None
        (Some (errorShape UNAVAILABLE "Error: config unreadable"))], Ok tt) /\
  handlePairingHttpRequest Faulty.env_config_down
    (Sample.approve_request (VStr "123456") (VBool true)) =
    ([ReadBody; ApproveCode "sms" "123456"; LoadConfig;
      SendJson 500
        (VObj [("ok", VBool false); ("error", VStr "Error: config unreadable")])],
     Ok true).
Proof.
  destruct (config_failure_after_approval Faulty.env_config_down
              "sms" "123456" "sms" "req_1" "Error: config unreadable")
    as [Hgateway Hhttp]; [reflexivity | discriminate | reflexivity |].
  split.
  - apply Hgateway; reflexivity.
  - apply (Hhttp (Sample.approve_request (VStr "123456") (VBool true)));
      try reflexivity.
    + exists "/api/pairing/sms/approve". repeat split.
    + left. reflexivity.
Defined.

(** ** The order of events *)


Section Order.

Variable env : Env.




Lemma approve_notifier_order params :
  each_preceded is_broadcast is_notifier_call false
    (trace (channel_pair_approve env params)) = true /\
  each_preceded is_approve_call is_broadcast false
    (trace (channel_pair_approve env params)) = true.
Proof.
  destruct (channel_pair_approve_outcomes env params)
    as [[msg ->] | (raw & code & channel & Hp & Hc & Hcode & Hch)].
  - split; reflexivity.
  - rewrite (channel_pair_approve_runs env params raw code channel Hp Hc Hcode Hch).
    destruct (approveChannelPairingCode env channel code) as [[id|]|err];
      [ destruct (truthy (prop params "notify"));
        [ destruct (loadConfig env) as [cfg|err];
          [ destruct (notifyPairingApproved env channel id cfg) as [[?|?]|?] | ] | ] | | ];
      split; reflexivity.
Qed.

End Order.



(** X8.  On the gateway the notifier is called only after the broadcast, and
    the broadcast is emitted only after the store's approve call: in every
    trace of [channel.pair.approve], a call of the notifier has a broadcast
    before it and a broadcast has a store call before it. *)
Theorem notifier_follows_broadcast
    (env : Env) (params : value) (before after_it : list event) (e : event) :
  trace (channel_pair_approve env params) = (before ++ e :: after_it)%list ->
  (is_notifier_call e = true ->
   exists b, In b before /\ is_broadcast b = true) /\
  (is_broadcast e = true ->
   exists s, In s before /\ is_approve_call s = true).
Proof.
  intros Ht. destruct (approve_notifier_order env params) as [Hn Hb].
  split; intros He.
  - destruct (each_preceded_sound _ _ _ _ Hn before e after_it Ht He)
      as [Hseen | Hex]; [discriminate Hseen | exact Hex].
  - destruct (each_preceded_sound _ _ _ _ Hb before e after_it Ht He)
      as [Hseen | Hex]; [discriminate Hseen | exact Hex].
Qed.

Lemma notifier_follows_broadcast_witness :
  exists b,
    In b [ApproveCode "sms" "123456";
          LogInfo "channel pairing approved channel=sms id=req_1";
          Broadcast "channel.pair.resolved"
            (resolved_event Sample.env "sms" "req_1") true;
          LoadConfig] /\
    is_broadcast b = true.
Proof.
  destruct (notifier_follows_broadcast Sample.env
              (Sample.approve_params (VStr "123456") (VBool true))
              [ApproveCode "sms" "123456";
               LogInfo "channel pairing approved channel=sms id=req_1";
               Broadcast "channel.pair.resolved"
                 (resolved_event Sample.env "sms" "req_1") true;
               LoadConfig]
              [LogWarn "failed to notify pairing requester: Error: delivery failed";
               Respond true (Some (approve_payload "sms" "req_1")) None]
              (Notify "sms" "req_1" (VObj [])))
    as [Hnotify _].
  - reflexivity.
  - apply Hnotify. reflexivity.
Defined.

(** ** What the HTTP adapter does only for authorized callers *)

Section Guards.

Variable env : Env.

Lemma gate_is_no_action e :
  is_gate_event e = true -> is_action_call e = false.
Proof. destruct e; intros H; try reflexivity; discriminate H. Qed.

Lemma dispatch_never_authorizes req channel action :
  never is_authorize_call (trace (dispatch env req channel action)).
Proof.
  dispatch_cases env req channel action; unfold never, after, trace; simpl;
    repeat constructor.
Qed.

Lemma auth_calls_at_most_one :
  List.length (auth_calls env) <= 1.
Proof.
  unfold auth_calls. destruct (isLocalDirectRequest env); simpl; [lia|].
  destruct (truthy_string (getBearerToken env)); simpl; lia.
Qed.

Lemma trim_code_of body : trim (code_of body) = code_of body.
Proof.
  unfold code_of. destruct (typeof_string (prop body "code")); [|reflexivity].
  apply trim_idempotent.
Qed.

(** The store and notifier calls of the approve action. *)
Lemma in_dispatch_trace req channel action e :
  In e (trace (dispatch env req channel action)) ->
  match e with
  | ListRequests c => c = channel /\ action = "list" /\ method req = "GET"
  | ApproveCode c code =>
      c = channel /\ action = "approve" /\ method req = "POST" /\
      code = code_of (body_value req) /\ code <> ""
  | LoadConfig =>
      action = "approve" /\ notify_of (body_value req) = true /\
      exists id,
        approveChannelPairingCode env channel (code_of (body_value req)) = Ok (Some id)
  | Notify c id cfg =>
      c = channel /\ action = "approve" /\ notify_of (body_value req) = true /\
      approveChannelPairingCode env channel (code_of (body_value req)) = Ok (Some id) /\
      loadConfig env = Ok cfg
  | ReadBody => action = "approve" /\ method req = "POST"
  | _ => True
  end.
Proof.
  assert (Hl : forall a m, JsString.eqb a "list" && JsString.eqb m "GET" = true ->
                           a = "list" /\ m = "GET").
  { intros a m H. apply andb_true_iff in H as [H1 H2].
    now apply string_eqb_eq in H1, H2. }
  assert (Ha : forall a m, JsString.eqb a "approve" && JsString.eqb m "POST" = true ->
                           a = "approve" /\ m = "POST").
  { intros a m H. apply andb_true_iff in H as [H1 H2].
    now apply string_eqb_eq in H1, H2. }
  dispatch_cases env req channel action; unfold after, trace; simpl;
    intros Hin;
    repeat (destruct Hin as [<- | Hin]; [|]); try contradiction;
    try exact I;
    try (destruct (Hl _ _ ltac:(eassumption)) as [? ?]);
    try (destruct (Ha _ _ ltac:(eassumption)) as [? ?]);
    repeat split; auto; eauto.
Qed.

End Guards.

(** X9.  The HTTP adapter touches the request body, the store, the
    configuration and the notifier only for a caller that is authorized, on
    a path of two segments whose channel resolves: every such call in a trace
    comes with a local-direct origin or an accepted bearer token. *)
Theorem actions_need_authorization (env : Env) (req : Request) (e : event) :
  In e (trace (handlePairingHttpRequest env req)) ->
  is_action_call e = true ->
  authorized env /\
  exists channelRaw action channel,
    routed req channelRaw action /\
    truthy_string (resolveChannel env channelRaw) = Some channel.
Proof.
  intros Hin He.
  destruct (handle_cases env req)
    as [Hgate | (raw & action & channel & Hroute & Hch & Hauth & _)].
  - rewrite Forall_forall in Hgate.
    rewrite (gate_is_no_action e (Hgate e Hin)) in He. discriminate He.
  - split; [exact Hauth|]. now exists raw, action, channel.
Qed.

Lemma actions_need_authorization_witness :
  authorized Faulty.env_token /\
  exists channelRaw action channel,
    routed (Sample.approve_request (VStr "123456") VUndefined) channelRaw action /\
    truthy_string (resolveChannel Faulty.env_token channelRaw) = Some channel.
Proof.
  apply (actions_need_authorization Faulty.env_token
           (Sample.approve_request (VStr "123456") VUndefined)
           (ApproveCode "sms" "123456")).
  - simpl. auto.
  - reflexivity.
Defined.

(** X10.  What reaches the store is normalized.  On the HTTP adapter an
    approve call carries the resolved channel of the path and the [code] of
    the body trimmed and non-empty, and is made only for POST .../approve; a
    list call carries the resolved channel and is made only for GET
    .../list.  On the gateway an approve call carries the resolved channel and
    the [code] string as supplied, whose trimmed form is non-empty. *)
Theorem store_receives_resolved_input (env : Env) :
  (forall req channel code,
      In (ApproveCode channel code) (trace (handlePairingHttpRequest env req)) ->
      method req = "POST" /\
      (exists channelRaw,
          routed req channelRaw "approve" /\
          truthy_string (resolveChannel env channelRaw) = Some channel) /\
      code = code_of (body_value req) /\ trim code = code /\ code <> "") /\
  (forall req channel,
      In (ListRequests channel) (trace (handlePairingHttpRequest env req)) ->
      method req = "GET" /\
      exists channelRaw,
        routed req channelRaw "list" /\
        truthy_string (resolveChannel env channelRaw) = Some channel) /\
  (forall params channel code,
      In (ApproveCode channel code) (trace (channel_pair_approve env params)) ->
      prop params "code" = VStr code /\ trim code <> "" /\
      exists raw,
        prop params "channel" = VStr raw /\
        truthy_string (resolveChannel env raw) = Some channel).
Proof.
  split; [|split].
  - intros req channel code Hin.
    destruct (handle_cases env req)
      as [Hgate | (raw & action & ch & Hroute & Hch & Hauth & Hrun)].
    + rewrite Forall_forall in Hgate. discriminate (Hgate _ Hin).
    + rewrite Hrun in Hin. unfold after, trace in Hin. simpl in Hin.
      apply in_app_or in Hin as [Hin | Hin].
      * apply in_auth_calls in Hin as (_ & t & _ & Hbad). discriminate Hbad.
      * apply (in_dispatch_trace env req ch action) in Hin.
        destruct Hin as (-> & -> & Hm & -> & Hne).
        repeat split; auto; [now exists raw | apply trim_code_of].
  - intros req channel Hin.
    destruct (handle_cases env req)
      as [Hgate | (raw & action & ch & Hroute & Hch & Hauth & Hrun)].
    + rewrite Forall_forall in Hgate. discriminate (Hgate _ Hin).
    + rewrite Hrun in Hin. unfold after, trace in Hin. simpl in Hin.
      apply in_app_or in Hin as [Hin | Hin].
      * apply in_auth_calls in Hin as (_ & t & _ & Hbad). discriminate Hbad.
      * apply (in_dispatch_trace env req ch action) in Hin.
        destruct Hin as (-> & -> & Hm).
        split; [exact Hm | now exists raw].
  - intros params channel code Hin.
    destruct (channel_pair_approve_outcomes env params)
      as [[msg Hrun] | (raw & code' & ch & Hp & Hc & Hcode & Hch)].
    + rewrite Hrun in Hin. simpl in Hin. destruct Hin as [Hbad | []].
      discriminate Hbad.
    + rewrite (channel_pair_approve_runs env params raw code' ch Hp Hc Hcode Hch)
        in Hin.
      assert (E : channel = ch /\ code = code').
      { destruct (approveChannelPairingCode env ch code') as [[id|]|err];
          [ destruct (truthy (prop params "notify"));
            [ destruct (loadConfig env) as [cfg|err];
              [ destruct (notifyPairingApproved env ch id cfg) as [[?|?]|?] | ] | ] | | ];
          unfold after, trace in Hin; simpl in Hin;
          repeat (destruct Hin as [Hin | Hin];
                  [try discriminate Hin; inversion Hin; now split|]);
          contradiction. }
      destruct E as [-> ->]. repeat split; auto. now exists raw.
Qed.

Lemma store_receives_resolved_input_witness :
  method (Sample.approve_request (VStr " 123456 ") VUndefined) = "POST" /\
  (exists channelRaw,
      routed (Sample.approve_request (VStr " 123456 ") VUndefined) channelRaw "approve" /\
      truthy_string (resolveChannel Sample.env channelRaw) = Some "sms") /\
  "123456" = code_of (body_value (Sample.approve_request (VStr " 123456 ") VUndefined)) /\
  trim "123456" = "123456" /\ "123456" <> "".
Proof.
  destruct (store_receives_resolved_input Sample.env) as (Hhttp & _ & _).
  apply Hhttp. simpl. auto.
Defined.

(** ** The authorization engine *)

Section Engine.

Variable env : Env.

Lemma filter_no_longer (p : event -> bool) (t : list event) :
  List.length (filter p t) <= List.length t.
Proof.
  induction t as [|e r IH]; simpl; [lia|].
  destruct (p e); simpl; lia.
Qed.

Lemma authorize_calls_of_after (m : M bool) :
  never is_authorize_call (trace m) ->
  List.length (filter is_authorize_call (trace (after (auth_calls env) m))) <= 1.
Proof.
  intros Hm. rewrite filter_after, (never_filter_nil _ _ Hm), app_nil_r.
  pose proof (filter_no_longer is_authorize_call (auth_calls env)).
  pose proof auth_calls_at_most_one env. lia.
Qed.

End Engine.

(** X11.  The authorization engine is consulted at most once per request,
    never for a local-direct request and never without a non-empty bearer
    token; when it is, the path has two segments and a channel that resolves,
    and the engine is given the bearer token both as token and as password,
    with Tailscale sign-in switched off. *)
Theorem authorization_engine_usage (env : Env) (req : Request) :
  List.length (filter is_authorize_call (trace (handlePairingHttpRequest env req)))
    <= 1 /\
  (forall e,
      In e (trace (handlePairingHttpRequest env req)) ->
      is_authorize_call e = true ->
      isLocalDirectRequest env = false /\
      (exists token,
          truthy_string (getBearerToken env) = Some token /\
          e = Authorize token token false) /\
      exists channelRaw action channel,
        routed req channelRaw action /\
        truthy_string (resolveChannel env channelRaw) = Some channel).
Proof.
  destruct (handle_outcomes env req)
    as [[_ Hrun] | [(p & _ & _ & Hrun) | [(p & _ & _ & _ & Hrun)
       | [(raw & action & _ & _ & Hrun)
         | (raw & action & channel & Hroute & Hch &
            [[_ Hrun] | [(Hrej & token & err & Htok & Hrun) | [_ Hrun]]])]]]];
    rewrite Hrun; clear Hrun.
  - split; [simpl; lia | intros e []].
  - split; [simpl; lia | intros e []].
  - split; [simpl; lia | intros e [<- | []] He; discriminate He].
  - split; [simpl; lia | intros e [<- | []] He; discriminate He].
  - split.
    + apply (authorize_calls_of_after env
               ([SendJson 401 (error_body "Unauthorized")], Ok true)).
      repeat constructor.
    + intros e Hin He. simpl in Hin. apply in_app_or in Hin as [Hin | Hin].
      * apply in_auth_calls in Hin as (Hloc & t & Ht & ->).
        repeat split; auto; [now exists t | now exists raw, action, channel].
      * destruct Hin as [<- | []]. discriminate He.
  - split; [simpl; lia|].
    intros e [<- | []] _. destruct Hrej as [Hloc _].
    repeat split; auto; [now exists token | now exists raw, action, channel].
  - split.
    + apply authorize_calls_of_after. apply dispatch_never_authorizes.
    + intros e Hin He. unfold after, trace in Hin. simpl in Hin.
      apply in_app_or in Hin as [Hin | Hin].
      * apply in_auth_calls in Hin as (Hloc & t & Ht & ->).
        repeat split; auto; [now exists t | now exists raw, action, channel].
      * pose proof (dispatch_never_authorizes env req channel action) as Hnever.
        unfold never in Hnever. rewrite Forall_forall in Hnever.
        rewrite (Hnever e Hin) in He. discriminate He.
Qed.

Lemma authorization_engine_usage_witness :
  isLocalDirectRequest Faulty.env_token = false /\
  (exists token,
      truthy_string (getBearerToken Faulty.env_token) = Some token /\
      Authorize "secret" "secret" false = Authorize token token false) /\
  exists channelRaw action channel,
    routed (Sample.request "/api/pairing/sms/list" "GET") channelRaw action /\
    truthy_string (resolveChannel Faulty.env_token channelRaw) = Some channel.
Proof.
  destruct (authorization_engine_usage Faulty.env_token
              (Sample.request "/api/pairing/sms/list" "GET")) as [_ Huse].
  apply Huse.
  - simpl. auto.
  - reflexivity.
Defined.

(** ** The channel is used through its resolved form only *)

(** X12.  Two spellings of a channel that resolve to the same channel are
    served alike: gateway parameters that differ in the [channel] string
    only, and HTTP requests that differ in the channel segment only, produce
    the same calls, the same answer and the same result. *)
Theorem channel_spelling_is_irrelevant (env : Env) (raw raw' channel : string) :
  truthy_string (resolveChannel env raw) = Some channel ->
  truthy_string (resolveChannel env raw') = Some channel ->
  (forall params params',
      prop params "channel" = VStr raw ->
      prop params' "channel" = VStr raw' ->
      prop params "code" = prop params' "code" ->
      prop params "notify" = prop params' "notify" ->
      channel_pair_list env params = channel_pair_list env params' /\
      channel_pair_approve env params = channel_pair_approve env params') /\
  (forall req req' action,
      routed req raw action ->
      routed req' raw' action ->
      method req = method req' ->
      json_body req = json_body req' ->
      handlePairingHttpRequest env req = handlePairingHttpRequest env req').
Proof.
  intros Hch Hch'. split.
  - intros params params' Hp Hp' Hcode Hnotify. split.
    + rewrite (channel_pair_list_runs env params raw channel Hp Hch).
      now rewrite (channel_pair_list_runs env params' raw' channel Hp' Hch').
    + destruct (prop params "code") as [| | | |code| |] eqn:Hc;
        try (rewrite !channel_pair_approve_invalid;
             [reflexivity
             | apply validate_approve_needs_code; left; now rewrite <- Hcode
             | apply validate_approve_needs_code; left; now rewrite Hc]).
      destruct (string_dec (trim code) "") as [E | N].
      * rewrite !channel_pair_approve_invalid;
          [reflexivity
          | apply validate_approve_needs_code; right; now rewrite <- Hcode
          | apply validate_approve_needs_code; right; now rewrite Hc].
      * rewrite (channel_pair_approve_runs env params raw code channel
                   Hp Hc N Hch).
        rewrite (channel_pair_approve_runs env params' raw' code channel
                   Hp' (eq_sym Hcode) N Hch').
        now rewrite Hnotify.
  - intros req req' action Hroute Hroute' Hm Hb.
    destruct (auth_trichotomy env) as [Hyes | [Hno | Hrej]].
    + rewrite (routed_authorized env req raw action channel Hroute Hch Hyes).
      rewrite (routed_authorized env req' raw' action channel Hroute' Hch' Hyes).
      now rewrite (dispatch_same_request env req req' channel action Hm Hb).
    + rewrite (routed_unauthorized env req raw action channel Hroute Hch Hno).
      now rewrite (routed_unauthorized env req' raw' action channel Hroute' Hch' Hno).
    + destruct (routed_auth_rejects env req raw action channel Hroute Hch Hrej)
        as (t & err & Ht & Hthrow & ->).
      destruct (routed_auth_rejects env req' raw' action channel Hroute' Hch' Hrej)
        as (t' & err' & Ht' & Hthrow' & ->).
      congruence.
Qed.

Lemma channel_spelling_is_irrelevant_witness :
  handlePairingHttpRequest Sample.env (Sample.request "/api/pairing/SMS/list" "GET") =
  handlePairingHttpRequest Sample.env (Sample.request "/api/pairing/sms/list" "GET").
Proof.
  destruct (channel_spelling_is_irrelevant Sample.env "SMS" "sms" "sms")
    as [_ Hhttp]; [reflexivity | reflexivity |].
  apply (Hhttp _ _ "list"); try reflexivity.
  - exists "/api/pairing/SMS/list". repeat split.
  - exists "/api/pairing/sms/list". repeat split.
Defined.

(** ** What the notifier is given *)

(** X13.  The configuration is read, and the notifier called, only for an
    approve that asked for [notify] and that the store has approved; the
    notifier is given the resolved channel, the id returned by the store and
    the configuration just read.  This holds on both adapters, with [notify]
    truthy on the gateway and [notify === true] on the HTTP adapter. *)
Theorem notifier_receives_store_id_and_config (env : Env) :
  (forall params e,
      In e (trace (channel_pair_approve env params)) ->
      e = LoadConfig \/ is_notifier_call e = true ->
      truthy (prop params "notify") = true /\
      exists raw code channel id,
        prop params "channel" = VStr raw /\
        prop params "code" = VStr code /\
        truthy_string (resolveChannel env raw) = Some channel /\
        approveChannelPairingCode env channel code = Ok (Some id) /\
        (is_notifier_call e = true ->
         exists cfg, loadConfig env = Ok cfg /\ e = Notify channel id cfg)) /\
  (forall req e,
      In e (trace (handlePairingHttpRequest env req)) ->
      e = LoadConfig \/ is_notifier_call e = true ->
      notify_of (body_value req) = true /\
      exists channelRaw channel id,
        routed req channelRaw "approve" /\
        truthy_string (resolveChannel env channelRaw) = Some channel /\
        approveChannelPairingCode env channel (code_of (body_value req)) =
          Ok (Some id) /\
        (is_notifier_call e = true ->
         exists cfg, loadConfig env = Ok cfg /\ e = Notify channel id cfg)).
Proof.
  split.
  - intros params e Hin He.
    destruct (channel_pair_approve_outcomes env params)
      as [[msg Hrun] | (raw & code & ch & Hp & Hc & Hcode & Hch)].
    + rewrite Hrun in Hin. destruct Hin as [<- | []].
      destruct He as [He | He]; discriminate He.
    + rewrite (channel_pair_approve_runs env params raw code ch Hp Hc Hcode Hch)
        in Hin.
      destruct (approveChannelPairingCode env ch code) as [[id|]|err] eqn:Hstore;
        [ destruct (truthy (prop params "notify")) eqn:Hn;
          [ destruct (loadConfig env) as [cfg|err] eqn:Hcfg;
            [ destruct (notifyPairingApproved env ch id cfg) as [[?|?]|?] | ] | ] | | ];
        unfold after, trace in Hin; simpl in Hin;
        repeat (destruct Hin as [<- | Hin];
                [try (destruct He as [He | He]; discriminate He)|]);
        try contradiction;
        (split; [reflexivity|]);
        exists raw, code, ch, id; repeat split; auto;
        intros Hcall; try discriminate Hcall;
        exists cfg; split; reflexivity.
  - intros req e Hin He.
    destruct (handle_cases env req)
      as [Hgate | (raw & action & ch & Hroute & Hch & Hauth & Hrun)].
    + rewrite Forall_forall in Hgate. specialize (Hgate e Hin).
      destruct He as [-> | He]; [discriminate Hgate|].
      destruct e; discriminate.
    + rewrite Hrun in Hin. unfold after, trace in Hin. simpl in Hin.
      apply in_app_or in Hin as [Hin | Hin].
      * apply in_auth_calls in Hin as (_ & t & _ & ->).
        destruct He as [He | He]; discriminate He.
      * apply (in_dispatch_trace env req ch action) in Hin.
        destruct He as [-> | He].
        -- destruct Hin as (-> & Hn & id & Hid).
           split; [exact Hn|]. exists raw, ch, id. repeat split; auto.
           intros Hcall. discriminate Hcall.
        -- destruct e as [| | |c id cfg| | | | | | |]; try discriminate He.
           destruct Hin as (-> & -> & Hn & Hid & Hcfg).
           split; [exact Hn|]. exists raw, ch, id. repeat split; auto.
           intros _. now exists cfg.
Qed.

Lemma notifier_receives_store_id_and_config_witness :
  truthy (prop (Sample.approve_params (VStr "123456") (VNum 1)) "notify") = true /\
  exists raw code channel id,
    prop (Sample.approve_params (VStr "123456") (VNum 1)) "channel" = VStr raw /\
    prop (Sample.approve_params (VStr "123456") (VNum 1)) "code" = VStr code /\
    truthy_string (resolveChannel Sample.env raw) = Some channel /\
    approveChannelPairingCode Sample.env channel code = Ok (Some id) /\
    (is_notifier_call (Notify "sms" "req_1" (VObj [])) = true ->
     exists cfg,
       loadConfig Sample.env = Ok cfg /\
       Notify "sms" "req_1" (VObj []) = Notify channel id cfg).
Proof.
  destruct (notifier_receives_store_id_and_config Sample.env) as [Hgateway _].
  apply Hgateway.
  - simpl. auto 10.
  - right. reflexivity.
Defined.

(** ** One call per request *)

Section Once.

Variable env : Env.

Lemma dispatch_calls_once req channel action :
  at_most_once is_store_call (trace (dispatch env req channel action)) /\
  at_most_once is_notifier_call (trace (dispatch env req channel action)).
Proof.
  unfold at_most_once.
  dispatch_cases env req channel action; unfold after, trace; simpl; lia.
Qed.

Lemma gate_is_no_store e : is_gate_event e = true -> is_store_call e = false.
Proof. destruct e; intros H; try reflexivity; discriminate H. Qed.

Lemma after_auth_once (p : event -> bool) (m : M bool) :
  (forall e, is_gate_event e = true -> p e = false) ->
  at_most_once p (trace m) ->
  at_most_once p (trace (after (auth_calls env) m)).
Proof.
  intros Hp Hm. unfold at_most_once in *.
  rewrite filter_after.
  now rewrite (never_filter_nil p (auth_calls env) (never_auth_calls env p Hp)).
Qed.

Lemma gate_trace_once (p : event -> bool) (t : list event) :
  (forall e, is_gate_event e = true -> p e = false) ->
  Forall (fun e => is_gate_event e = true) t ->
  at_most_once p t.
Proof.
  intros Hp Hgate. unfold at_most_once.
  rewrite (never_filter_nil p t (never_of_gate p t Hp Hgate)). simpl. lia.
Qed.

End Once.

(** X14.  One request, one call: a run of either adapter calls the store at
    most once and the notifier at most once, and the gateway emits at most
    one broadcast; nothing is retried, whatever the collaborators answer. *)
Theorem one_call_per_request (env : Env) :
  (forall params,
      List.length (filter is_store_call (trace (channel_pair_list env params))) <= 1 /\
      filter is_notifier_call (trace (channel_pair_list env params)) = []) /\
  (forall params,
      List.length (filter is_store_call (trace (channel_pair_approve env params))) <= 1 /\
      List.length (filter is_notifier_call (trace (channel_pair_approve env params))) <= 1 /\
      List.length (filter is_broadcast (trace (channel_pair_approve env params))) <= 1) /\
  (forall req,
      List.length (filter is_store_call (trace (handlePairingHttpRequest env req))) <= 1 /\
      List.length (filter is_notifier_call (trace (handlePairingHttpRequest env req))) <= 1).
Proof.
  split; [|split].
  - intros params.
    destruct (validateChannelPairListParams params) eqn:Hv.
    + destruct (validate_list_true params Hv) as (raw & Hp & Hraw).
      destruct (truthy_string (resolveChannel env raw)) as [channel|] eqn:Hch.
      * rewrite (channel_pair_list_runs env params raw channel Hp Hch).
        destruct (listChannelPairingRequests env channel); simpl; split;
          (lia || reflexivity).
      * destruct (channel_pair_list_rejects env params) as [msg ->];
          [right; now rewrite Hraw|]. simpl. split; (lia || reflexivity).
    + destruct (channel_pair_list_rejects env params) as [msg ->]; [now left|].
      simpl. split; (lia || reflexivity).
  - intros params.
    destruct (channel_pair_approve_outcomes env params)
      as [[msg ->] | (raw & code & ch & Hp & Hc & Hcode & Hch)].
    + simpl. lia.
    + rewrite (channel_pair_approve_runs env params raw code ch Hp Hc Hcode Hch).
      destruct (approveChannelPairingCode env ch code) as [[id|]|err];
        [ destruct (truthy (prop params "notify"));
          [ destruct (loadConfig env) as [cfg|err];
            [ destruct (notifyPairingApproved env ch id cfg) as [[?|?]|?] | ] | ] | | ];
        unfold after, trace; simpl; lia.
  - intros req.
    destruct (handle_cases env req)
      as [Hgate | (raw & action & ch & _ & _ & _ & ->)].
    + split.
      * apply (gate_trace_once is_store_call _ gate_is_no_store Hgate).
      * apply (gate_trace_once is_notifier_call _ gate_is_no_notifier Hgate).
    + destruct (dispatch_calls_once env req ch action) as [Hs Hn]. split.
      * apply (after_auth_once env is_store_call _ gate_is_no_store Hs).
      * apply (after_auth_once env is_notifier_call _ gate_is_no_notifier Hn).
Qed.
